(** * Telegram Secretary: message ledger, scorer, intake, batch selector
      and label callback

    A shallow embedding of the Python sources [utils.py], [userbot.py],
    [scheduler.py] and [bot.py], and of the session and the URL conversion
    of [database.py].

    Conventions of the model
    - Python [int] is [Z]; [bool] is [bool]; [Optional[T]] is [option T].
    - Python [str] is [string], one character per code point; the texts
      of the model are made of the code points below 256, on which
      [str.lower], [str.strip] and the class [\w] of [re] are given by the
      tables below, and [len] is [String.length].
    - A naive UTC [datetime] is a [Z] counting microseconds; a
      [timedelta(hours=h)] is [h * 3600000000].
    - The message table is the list of its rows; the primary key [id] is
      unique ([pk_unique]).
    - Collaborators that can fail (Telegram delivery, the storage session,
      the local summarizer) are oracles passed to the operation, and the
      calls made to them are recorded in a trace of events. *)

From Stdlib Require Import ZArith String Ascii List Lia Bool.
From Stdlib Require DecimalString DecimalZ DecimalPos.
From stdpp Require Import base list sets sorting relations.

Local Open Scope string_scope.
Local Open Scope list_scope.
Local Open Scope Z_scope.

(** ** Data model *)

(** The row type of the [messages] table, with the attributes that the
    sources read and write on [Message] objects. *)
Record Message := mkMessage {
  id : Z;
  telegram_message_id : Z;
  chat_id : Z;
  chat_title : option string;
  chat_type : string;
  user_id : Z;
  user_name : option string;
  message_text : option string;
  timestamp : Z;
  has_mention : bool;
  is_question : bool;
  message_length : Z;
  priority_score : Z;
  topic_summary : option string;
  label : option string;
  labeled_at : option Z;
  included_in_summary : bool;
  summary_sent_at : option Z;
  warning_sent : bool;
  warning_sent_at : option Z
}.

(** [config.SchedulerConfig] *)
Record SchedulerConfig := mkSchedulerConfig {
  summary_interval_hours : Z;
  max_messages_per_summary : nat;
  min_priority_score : Z;
  warning_threshold_score : Z
}.

Definition ledger := list Message.

(** ** utils.py: the scorer *)

Definition SCORE_MENTION : Z := 3.
Definition SCORE_QUESTION : Z := 2.
Definition SCORE_LONG_MESSAGE : Z := 1.
Definition SCORE_HIGH_PRIORITY_USER : Z := 2.
Definition MIN_LONG_MESSAGE_LENGTH : Z := 100.

(** Python [len] on a [str]. *)
Definition len (s : string) : Z := Z.of_nat (String.length s).

(** Truth value of an [Optional[str]]: [None] and the empty string are
    false. *)
Definition truthy (t : option string) : bool :=
  match t with
  | None => false
  | Some EmptyString => false
  | Some (String _ _) => true
  end.

Definition calculate_priority_score
    (message_text : option string)
    (has_mention is_question is_high_priority_user : bool) : Z :=
  let score := 0 in
  let score := if has_mention then score + SCORE_MENTION else score in
  let score := if is_question then score + SCORE_QUESTION else score in
  let score :=
    match message_text with
    | Some s =>
        if truthy message_text && (MIN_LONG_MESSAGE_LENGTH <? len s)
        then score + SCORE_LONG_MESSAGE else score
    | None => score
    end in
  let score :=
    if is_high_priority_user then score + SCORE_HIGH_PRIORITY_USER
    else score in
  score.

(** [len(message_text) if message_text else 0], the text length that
    [save_message] stores with the row. *)
Definition text_length (message_text : option string) : Z :=
  match message_text with
  | Some s => if truthy message_text then len s else 0
  | None => 0
  end.

(** ** utils.py: the feature extractor *)

(** Characters are code points below 256, read through [nat_of_ascii]. *)
Definition code (c : ascii) : nat := nat_of_ascii c.

Definition between (lo hi n : nat) : bool := (lo <=? n)%nat && (n <=? hi)%nat.

(** [str.lower] on one code point below 256: the capital letters [A-Z] and
    the capital letters [U+00C0 .. U+00DE] without the multiplication sign
    [U+00D7] move up by 32. *)
Definition lower_char (c : ascii) : ascii :=
  let n := code c in
  if between 65 90 n || (between 192 222 n && negb (n =? 215)%nat)
  then ascii_of_nat (n + 32) else c.

Fixpoint lower (s : string) : string :=
  match s with
  | EmptyString => EmptyString
  | String c r => String (lower_char c) (lower r)
  end.

(** The class [\w] of [re] on [str] patterns: the alphanumeric code points
    and the underscore. *)
Definition is_word (c : ascii) : bool :=
  let n := code c in
  between 48 57 n || between 65 90 n || between 97 122 n || (n =? 95)%nat
  || (n =? 170)%nat || (n =? 178)%nat || (n =? 179)%nat || (n =? 181)%nat
  || (n =? 185)%nat || (n =? 186)%nat || between 188 190 n
  || between 192 214 n || between 216 246 n || between 248 255 n.

(** The code points that [str.strip] treats as white space. *)
Definition is_space (c : ascii) : bool :=
  let n := code c in
  between 9 13 n || between 28 32 n || (n =? 133)%nat || (n =? 160)%nat.

(** The code points that [int] skips around a literal: the separators
    [U+001C .. U+001F] are not among them. *)
Definition is_int_space (c : ascii) : bool :=
  let n := code c in
  between 9 13 n || (n =? 32)%nat || (n =? 133)%nat || (n =? 160)%nat.

(** [needle in hay] *)
Fixpoint contains (needle hay : string) : bool :=
  String.prefix needle hay ||
  match hay with
  | EmptyString => false
  | String _ r => contains needle r
  end.

(** The longest run of [\w] at the head of [s]. *)
Fixpoint word_run (s : string) : string :=
  match s with
  | String c r => if is_word c then String c (word_run r) else EmptyString
  | EmptyString => EmptyString
  end.

(** [re.match(r"@\w+", s)]: the matched token, when [s] starts with one. *)
Definition match_mention (s : string) : option string :=
  match s with
  | String "@" r =>
      match word_run r with
      | EmptyString => None
      | w => Some (String "@" w)
      end
  | _ => None
  end.

(** [re.search(r"@\w+", s)]: the leftmost match. *)
Fixpoint search_mention (s : string) : option string :=
  match match_mention s with
  | Some tok => Some tok
  | None =>
      match s with
      | EmptyString => None
      | String _ r => search_mention r
      end
  end.

(** [bool(x)] of an optional match object. *)
Definition is_match (m : option string) : bool :=
  match m with Some _ => true | None => false end.

Definition detect_mention (text username : option string) : bool :=
  match text with
  | None => false
  | Some t =>
      if negb (truthy text) then false
      else
        match username with
        | Some u =>
            if truthy username
            then contains (String "@" u) (lower t)
                 || is_match (search_mention t)
            else is_match (search_mention t)
        | None => is_match (search_mention t)
        end
  end.

(** Removal of the leading, and of the trailing, characters of a class. *)
Fixpoint lstrip (sp : ascii -> bool) (s : string) : string :=
  match s with
  | String c r => if sp c then lstrip sp r else s
  | EmptyString => EmptyString
  end.

Fixpoint rstrip (sp : ascii -> bool) (s : string) : string :=
  match s with
  | EmptyString => EmptyString
  | String c r =>
      match rstrip sp r with
      | EmptyString => if sp c then EmptyString else String c EmptyString
      | r' => String c r'
      end
  end.

(** [s.strip()] *)
Definition strip (s : string) : string := rstrip is_space (lstrip is_space s).

(** [s.endswith(suffix)] for a one-character suffix. *)
Fixpoint endswith_char (c : ascii) (s : string) : bool :=
  match s with
  | EmptyString => false
  | String d EmptyString => Ascii.eqb c d
  | String _ r => endswith_char c r
  end.

(** U+00EA, the [e] with circumflex of the two last question starters. *)
Definition e_circumflex : string := String (ascii_of_nat 234) EmptyString.

Definition question_starters : list string :=
  [ "what"; "when"; "where"; "why"; "how"; "who"; "which";
    "is "; "are "; "do "; "does "; "can "; "could "; "would "; "will ";
    "should "; "have "; "has "; "did ";
    "que "; "qual "; "quem "; "quando "; "onde "; "como "; "por que";
    "voc" ++ e_circumflex ++ " "; "voc" ++ e_circumflex ++ "s " ]%string.

Definition detect_question (text : option string) : bool :=
  match text with
  | None => false
  | Some t =>
      if negb (truthy text) then false
      else
        let t := strip t in
        if endswith_char "?" t then true
        else
          let text_lower := lower t in
          existsb (fun starter => String.prefix starter text_lower)
                  question_starters
  end.

(** [generate_topic_summary]: no call of the summarizer for an absent text
    or one shorter than 10 characters; otherwise the answer of the local
    summarizer [ollama], which is [None] whenever the call fails, times out
    or the library is absent (every exception is caught in the function). *)
Definition generate_topic_summary
    (ollama : option string) (text : option string) : option string :=
  match text with
  | None => None
  | Some t => if negb (truthy text) || (len t <? 10) then None else ollama
  end.

(** ** Effects: the ledger, the trace and exceptions *)

Inductive level := DEBUG | INFO | WARNING | ERROR.

(** The texts that the scheduler hands to [send_simple_message]. *)
Inductive notice :=
| Quiet (hours : Z)
| AllClear (hours total_messages : Z)
| ErrorReport.

(** The texts that the label callback writes with [edit_message_text]. *)
Inductive reply :=
| NotFound
| Confirmation (label : string)
| ErrorReply.

Inductive event :=
| Log (l : level)
| SendWarningCall (message_id priority_score : Z)
| BotSendWarning (message_id : Z)
| SendSimpleMessage (n : notice)
| SendSummary (messages : list Message)
              (total_messages total_chats time_range_hours : Z)
| QueryAnswer
| EditMessageText (r : reply).

Record world := mkWorld {
  db : ledger;
  trace : list event
}.

Inductive result (A : Type) :=
| Ok (a : A)
| Raised.
Arguments Ok {A} a.
Arguments Raised {A}.

(** A computation reads and writes the world and either returns a value or
    raises; the world it leaves is kept in both cases. *)
Definition M (A : Type) : Type := world -> result A * world.

#[global] Instance M_ret : MRet M := fun A a w => (Ok a, w).

#[global] Instance M_bind : MBind M := fun A B f m w =>
  match m w with
  | (Ok a, w') => f a w'
  | (Raised, w') => (Raised, w')
  end.

Definition raise {A} : M A := fun w => (Raised, w).

(** [try: m except Exception: h] *)
Definition try_except {A} (m h : M A) : M A := fun w =>
  match m w with
  | (Ok a, w') => (Ok a, w')
  | (Raised, w') => h w'
  end.

Definition emit (ev : event) : M unit := fun w =>
  (Ok tt, mkWorld (db w) (trace w ++ [ev])).

Definition log (l : level) : M unit := emit (Log l).

(** A call of a collaborator: the call is recorded, then it returns or
    raises as the oracle [ok] says. *)
Definition call (ok : bool) (ev : event) : M unit :=
  emit ev ;; if ok then mret tt else raise.

Definition read {A} (f : ledger -> A) : M A := fun w => (Ok (f (db w)), w).

Definition write (f : ledger -> ledger) : M unit := fun w =>
  (Ok tt, mkWorld (f (db w)) (trace w)).

(** [async with get_session() as session: body] of [database.py]: the
    statements of [body] run on the table, the exit commits, and a raise in
    the body or a failing commit ([commit_ok = false]) rolls the table
    back and raises. *)
Definition with_session {A} (commit_ok : bool) (body : M A) : M A := fun w =>
  match body w with
  | (Ok a, w') =>
      if commit_ok then (Ok a, w')
      else (Raised, mkWorld (db w) (trace w'))
  | (Raised, w') => (Raised, mkWorld (db w) (trace w'))
  end.

(** ** The message table *)

(** Modelled from the spec: the primary key of [models.Message], which is
    not among the sources; "identity (opaque ordinal, assigned on
    creation)" is the next ordinal above every stored one. *)
Definition next_id (l : ledger) : Z :=
  1 + foldr Z.max 0 (id <$> l).

(** Modelled from the spec: the column defaults of [models.Message], which
    is not among the sources; a new row is persisted "with all fields set
    and all orthogonal flags false", its label and the timestamps of the
    flags null. *)
Definition new_row (i telegram_message_id chat_id : Z)
    (chat_title : option string) (chat_type : string) (user_id : Z)
    (user_name message_text : option string) (timestamp : Z)
    (has_mention is_question : bool) (message_length priority_score : Z)
    (topic_summary : option string) : Message :=
  {| id := i; telegram_message_id := telegram_message_id;
     chat_id := chat_id; chat_title := chat_title; chat_type := chat_type;
     user_id := user_id; user_name := user_name;
     message_text := message_text; timestamp := timestamp;
     has_mention := has_mention; is_question := is_question;
     message_length := message_length; priority_score := priority_score;
     topic_summary := topic_summary;
     label := None; labeled_at := None;
     included_in_summary := false; summary_sent_at := None;
     warning_sent := false; warning_sent_at := None |}.

(** [.values(label=..., labeled_at=...)] *)
Definition set_label (l : string) (now : Z) (m : Message) : Message :=
  {| id := id m; telegram_message_id := telegram_message_id m;
     chat_id := chat_id m; chat_title := chat_title m;
     chat_type := chat_type m; user_id := user_id m;
     user_name := user_name m; message_text := message_text m;
     timestamp := timestamp m; has_mention := has_mention m;
     is_question := is_question m; message_length := message_length m;
     priority_score := priority_score m; topic_summary := topic_summary m;
     label := Some l; labeled_at := Some now;
     included_in_summary := included_in_summary m;
     summary_sent_at := summary_sent_at m;
     warning_sent := warning_sent m; warning_sent_at := warning_sent_at m |}.

(** [.values(included_in_summary=True, summary_sent_at=...)] *)
Definition set_summary (now : Z) (m : Message) : Message :=
  {| id := id m; telegram_message_id := telegram_message_id m;
     chat_id := chat_id m; chat_title := chat_title m;
     chat_type := chat_type m; user_id := user_id m;
     user_name := user_name m; message_text := message_text m;
     timestamp := timestamp m; has_mention := has_mention m;
     is_question := is_question m; message_length := message_length m;
     priority_score := priority_score m; topic_summary := topic_summary m;
     label := label m; labeled_at := labeled_at m;
     included_in_summary := true; summary_sent_at := Some now;
     warning_sent := warning_sent m; warning_sent_at := warning_sent_at m |}.

(** [.values(warning_sent=True, warning_sent_at=...)] *)
Definition set_warning (now : Z) (m : Message) : Message :=
  {| id := id m; telegram_message_id := telegram_message_id m;
     chat_id := chat_id m; chat_title := chat_title m;
     chat_type := chat_type m; user_id := user_id m;
     user_name := user_name m; message_text := message_text m;
     timestamp := timestamp m; has_mention := has_mention m;
     is_question := is_question m; message_length := message_length m;
     priority_score := priority_score m; topic_summary := topic_summary m;
     label := label m; labeled_at := labeled_at m;
     included_in_summary := included_in_summary m;
     summary_sent_at := summary_sent_at m;
     warning_sent := true; warning_sent_at := Some now |}.

(** [sql_update(Message).where(cond).values(...)]: every row that meets
    the condition is rewritten, the others are kept. *)
Definition sql_update (cond : Message -> bool) (values : Message -> Message)
    (l : ledger) : ledger :=
  (fun m => if cond m then values m else m) <$> l.

(** [select(Message).where(cond)] *)
Definition sql_select (cond : Message -> bool) (l : ledger) : list Message :=
  List.filter cond l.

(** The primary key is unique. *)
Definition pk_unique (l : ledger) : Prop := NoDup (id <$> l).

(** [timedelta(hours=h)] in microseconds. *)
Definition hours_delta (h : Z) : Z := h * 3600000000.

(** ** userbot.py: the intake pipeline *)

(** The collaborators of one [save_message] call. *)
Record intake_env := mkIntakeEnv {
  ollama : option string;   (* answer of the local summarizer *)
  persist_ok : bool;        (* the insert session commits *)
  bot_app : bool;           (* [get_bot_app()] is not [None] *)
  send_ok : bool;           (* [bot.send_message] returns *)
  mark_ok : bool;           (* the session that sets [warning_sent] commits *)
  sent_at : Z               (* [datetime.utcnow()] of that session *)
}.

(** [session.add(message); await session.flush(); message.id] *)
Definition insert_row (row : Z -> Message) : M Z := fun w =>
  let i := next_id (db w) in
  (Ok i, mkWorld (db w ++ [row i]) (trace w)).

(** The arguments that only shape the rendered text of the alert
    (sender, chat, preview, indicators, topic) are left out. *)
Definition send_warning_for_message (e : intake_env)
    (message_id priority_score : Z) : M unit :=
  emit (SendWarningCall message_id priority_score) ;;
  try_except
    (if negb (bot_app e) then log WARNING
     else
       call (send_ok e) (BotSendWarning message_id) ;;
       with_session (mark_ok e)
         (write (sql_update (fun m => id m =? message_id)
                            (set_warning (sent_at e)))) ;;
       log INFO)
    (log ERROR).

Definition save_message (cfg : SchedulerConfig)
    (_high_priority_users : list Z) (e : intake_env)
    (telegram_message_id chat_id : Z) (chat_title : option string)
    (chat_type : string) (user_id : Z)
    (user_name message_text : option string) (timestamp : Z)
    (client_username : option string) : M unit :=
  try_except
    (let has_mention := detect_mention message_text client_username in
     let is_question := detect_question message_text in
     let message_length := text_length message_text in
     let is_high_priority := bool_decide (user_id ∈ _high_priority_users) in
     let priority_score :=
       calculate_priority_score message_text has_mention is_question
                                is_high_priority in
     let topic_summary := generate_topic_summary (ollama e) message_text in
     message_id ← with_session (persist_ok e)
       (insert_row (fun i =>
          new_row i telegram_message_id chat_id chat_title chat_type
                  user_id user_name message_text timestamp has_mention
                  is_question message_length priority_score topic_summary));
     (if warning_threshold_score cfg <=? priority_score
      then send_warning_for_message e message_id priority_score
      else mret tt) ;;
     log DEBUG)
    (log ERROR).

(** ** scheduler.py: the batch selector *)

(** [ORDER BY priority_score DESC, timestamp DESC]: [m1] may stand before
    [m2]. *)
Definition order_by (m1 m2 : Message) : bool :=
  (priority_score m2 <? priority_score m1)
  || ((priority_score m1 =? priority_score m2)
      && (timestamp m2 <=? timestamp m1)).

Definition precedes (m1 m2 : Message) : Prop := order_by m1 m2 = true.

#[global] Instance precedes_dec : RelDecision precedes.
Proof. intros m1 m2. unfold precedes. apply _. Defined.

(** The [where] clause of the selection query. *)
Definition selectable (cfg : SchedulerConfig) (cutoff_time : Z)
    (m : Message) : bool :=
  (cutoff_time <=? timestamp m)
  && match label m with None => true | Some _ => false end
  && negb (included_in_summary m)
  && (min_priority_score cfg <=? priority_score m).

(** The collaborators and clock readings of one summary run. *)
Record summary_env := mkSummaryEnv {
  bot_up : bool;            (* [_bot_app] is set *)
  stats_ok : bool;          (* the statistics session commits *)
  select_ok : bool;         (* the selection session commits *)
  deliver_ok : bool;        (* the Telegram sends of the digest return *)
  report_ok : bool;         (* the Telegram send of the error text returns *)
  stats_now : Z;            (* [utcnow()] in [get_message_stats] *)
  select_now : Z;           (* [utcnow()] of the cutoff of the selection *)
  claim_now : Z             (* [utcnow()] written to [summary_sent_at] *)
}.

(** The [UPDATE] goes through the session that holds the selected
    objects and is synchronised into them, so the objects that come back
    carry the flag and the time that the update has just written. A
    [LIMIT] is not negative. *)
Definition get_unlabeled_messages (cfg : SchedulerConfig) (e : summary_env)
    (hours : Z) (limit : nat) : M (list Message) :=
  let cutoff_time := select_now e - hours_delta hours in
  with_session (select_ok e)
    (messages ← read (fun l =>
        take limit
             (merge_sort precedes (sql_select (selectable cfg cutoff_time) l)));
     messages ←
       match messages with
       | [] => mret messages
       | _ :: _ =>
           let message_ids := id <$> messages in
           write (sql_update (fun m => bool_decide (id m ∈ message_ids))
                             (set_summary (claim_now e))) ;;
           mret (set_summary (claim_now e) <$> messages)
       end;
     mret messages).

Definition get_message_stats (e : summary_env) (hours : Z) : M (Z * Z) :=
  let cutoff_time := stats_now e - hours_delta hours in
  with_session (stats_ok e)
    (total_messages ← read (fun l =>
        Z.of_nat (length (sql_select (fun m => cutoff_time <=? timestamp m) l)));
     unique_chats ← read (fun l =>
        Z.of_nat (length (remove_dups
          (chat_id <$> sql_select (fun m => cutoff_time <=? timestamp m) l))));
     mret (total_messages, unique_chats)).

(** [bot.send_simple_message]: nothing is sent while the bot is down. *)
Definition send_simple_message (up ok : bool) (n : notice) : M unit :=
  emit (SendSimpleMessage n) ;;
  if up then (if ok then mret tt else raise) else mret tt.

(** [bot.send_summary]: reading [_bot_app.bot] raises while the bot is
    down. *)
Definition send_summary (up ok : bool) (messages : list Message)
    (total_messages total_chats time_range_hours : Z) : M unit :=
  emit (SendSummary messages total_messages total_chats time_range_hours) ;;
  if up && ok then mret tt else raise.

Definition generate_and_send_summary (cfg : SchedulerConfig)
    (e : summary_env) : M unit :=
  let hours := summary_interval_hours cfg in
  let max_messages := max_messages_per_summary cfg in
  log INFO ;;
  try_except
    ('(total_messages, unique_chats) ← get_message_stats e hours;
     if total_messages =? 0 then
       log INFO ;;
       send_simple_message (bot_up e) (deliver_ok e) (Quiet hours)
     else
       messages ← get_unlabeled_messages cfg e hours max_messages;
       match messages with
       | [] =>
           log INFO ;;
           send_simple_message (bot_up e) (deliver_ok e)
                               (AllClear hours total_messages)
       | _ :: _ =>
           send_summary (bot_up e) (deliver_ok e) messages total_messages
                        unique_chats hours ;;
           log INFO
       end)
    (log ERROR ;;
     try_except (send_simple_message (bot_up e) (report_ok e) ErrorReport)
                (mret tt)).

Definition is_quiet_hours : bool := false.

Definition scheduled_summary_job (cfg : SchedulerConfig)
    (e : summary_env) : M unit :=
  if is_quiet_hours then log INFO else generate_and_send_summary cfg e.

Definition trigger_summary_now (cfg : SchedulerConfig)
    (e : summary_env) : M unit :=
  log INFO ;; generate_and_send_summary cfg e.

(** ** bot.py: the label callback *)

(** [s.split(sep)] for a one-character separator. *)
Fixpoint split (sep : ascii) (s : string) : list string :=
  match s with
  | EmptyString => [EmptyString]
  | String c r =>
      if Ascii.eqb c sep then EmptyString :: split sep r
      else
        match split sep r with
        | h :: t => String c h :: t
        | [] => [String c EmptyString]
        end
  end.

Definition is_digit (c : ascii) : bool := between 48 57 (code c).

Definition digit_value (c : ascii) : Z := Z.of_nat (code c - 48).

(** The digits of a decimal literal, with single underscores between
    digits; [after_digit] tells whether the previous character was a
    digit. *)
Fixpoint digits (acc : Z) (after_digit : bool) (s : string) : option Z :=
  match s with
  | EmptyString => if after_digit then Some acc else None
  | String c r =>
      if is_digit c then digits (10 * acc + digit_value c) true r
      else if Ascii.eqb c "_" && after_digit then digits acc false r
      else None
  end.

(** [int(s)] in base 10: white space around, an optional sign, digits.
    [None] is the [ValueError]. The callback data of Telegram are at most
    64 bytes long, far below the length at which [int] refuses a literal. *)
Definition int (s : string) : option Z :=
  match rstrip is_int_space (lstrip is_int_space s) with
  | String "-" r => Z.opp <$> digits 0 false r
  | String "+" r => digits 0 false r
  | r => digits 0 false r
  end.

(** [label in ("high", "medium", "low")] *)
Definition valid_label (l : string) : bool :=
  String.eqb l "high" || String.eqb l "medium" || String.eqb l "low".

(** The collaborators of one callback. *)
Record label_env := mkLabelEnv {
  answer_ok : bool;         (* [query.answer()] returns *)
  session_ok : bool;        (* the session commits *)
  edit_ok : bool;           (* [edit_message_text] in the [try] returns *)
  edit_error_ok : bool;     (* [edit_message_text] in the handler returns *)
  label_now : Z             (* [datetime.utcnow()] of the update *)
}.

(** [result.scalar_one_or_none()]: more than one row raises. *)
Definition scalar_one_or_none (rows : list Message) : M (option Message) :=
  match rows with
  | [] => mret None
  | [m] => mret (Some m)
  | _ => raise
  end.

Definition handle_label_callback (e : label_env) (data : string) : M unit :=
  call (answer_ok e) QueryAnswer ;;
  try_except
    (match split ":" data with
     | [p0; message_id_str; label] =>
         if negb (String.eqb p0 "label") then log WARNING
         else
           match int message_id_str with
           | None => raise
           | Some message_id =>
               if negb (valid_label label) then log WARNING
               else
                 found ← with_session (session_ok e)
                   (rows ← read (sql_select (fun m => id m =? message_id));
                    message ← scalar_one_or_none rows;
                    match message with
                    | None =>
                        call (edit_ok e) (EditMessageText NotFound) ;;
                        mret false
                    | Some _ =>
                        write (sql_update (fun m => id m =? message_id)
                                          (set_label label (label_now e))) ;;
                        mret true
                    end);
                 if found : bool then
                   call (edit_ok e) (EditMessageText (Confirmation label)) ;;
                   log INFO
                 else mret tt
           end
     | _ => log WARNING
     end)
    (log ERROR ;; call (edit_error_ok e) (EditMessageText ErrorReply)).

(** [bot.create_priority_keyboard]: the callback data of the three
    buttons of a card, for a decimal rendering [message_id] of the id. *)
Definition callback_data (message_id label : string) : string :=
  ("label:" ++ message_id ++ ":" ++ label)%string.

(** ** The operations on the ledger *)

Inductive op :=
| OpSave (hp : list Z) (e : intake_env)
         (telegram_message_id chat_id : Z) (chat_title : option string)
         (chat_type : string) (user_id : Z)
         (user_name message_text : option string) (timestamp : Z)
         (client_username : option string)
| OpLabel (e : label_env) (data : string)
| OpSummary (e : summary_env)
| OpManualSummary (e : summary_env).

Definition run_op (cfg : SchedulerConfig) (o : op) : M unit :=
  match o with
  | OpSave hp e tid cid title type uid name text ts cu =>
      save_message cfg hp e tid cid title type uid name text ts cu
  | OpLabel e data => handle_label_callback e data
  | OpSummary e => scheduled_summary_job cfg e
  | OpManualSummary e => trigger_summary_now cfg e
  end.

(** The world after an operation, whether it returned or raised. *)
Definition exec {A} (m : M A) (w : world) : world := snd (m w).

Definition exec_ops (cfg : SchedulerConfig) (os : list op) (w : world) : world :=
  foldl (fun w o => exec (run_op cfg o) w) w os.

(** Row [i] of the table. *)
Definition row_of (i : Z) (l : ledger) : option Message :=
  List.find (fun m => id m =? i) l.

(** A text of [n] characters. *)
Definition text_of_length (n : nat) : option string :=
  Some (string_of_list_ascii (repeat "a"%char n)).

(** The events that a computation adds to the trace of [w]. *)
Definition emitted {A} (m : M A) (w : world) : list event :=
  drop (length (trace w)) (trace (exec m w)).

(** The score that [save_message] computes for a capture. *)
Definition intake_score (hp : list Z) (user_id : Z)
    (message_text client_username : option string) : Z :=
  calculate_priority_score message_text
    (detect_mention message_text client_username)
    (detect_question message_text)
    (bool_decide (user_id ∈ hp)).

(** The row that [save_message] inserts for a capture, under id [i]. *)
Definition intake_row (hp : list Z) (e : intake_env) (i : Z)
    (telegram_message_id chat_id : Z) (chat_title : option string)
    (chat_type : string) (user_id : Z)
    (user_name message_text : option string) (timestamp : Z)
    (client_username : option string) : Message :=
  new_row i telegram_message_id chat_id chat_title chat_type user_id
    user_name message_text timestamp
    (detect_mention message_text client_username)
    (detect_question message_text)
    (text_length message_text)
    (intake_score hp user_id message_text client_username)
    (generate_topic_summary (ollama e) message_text).

(** ** The selection query and the claim, as functions of the table *)

(** The rows that the selection query of [get_unlabeled_messages]
    returns. *)
Definition selection (cfg : SchedulerConfig) (cutoff_time : Z) (limit : nat)
    (l : ledger) : list Message :=
  take limit (merge_sort precedes (sql_select (selectable cfg cutoff_time) l)).

(** The update that marks the rows with the ids of [messages]. *)
Definition claim (messages : list Message) (now : Z) (l : ledger) : ledger :=
  sql_update (fun m => bool_decide (id m ∈ id <$> messages))
             (set_summary now) l.

(** The rows inside the lookback window of the statistics. *)
Definition in_window (cutoff_time : Z) (l : ledger) : list Message :=
  sql_select (fun m => cutoff_time <=? timestamp m) l.

(** One change of the table: an update that keeps the ids and never
    clears a claim, or the insertion of a row under the next id. *)
Inductive ledger_step : ledger -> ledger -> Prop :=
| step_update (g : Message -> Message) (l : ledger) :
    (forall m, id (g m) = id m) ->
    (forall m, included_in_summary m = true ->
               included_in_summary (g m) = true) ->
    ledger_step l (g <$> l)
| step_insert (r : Message) (l : ledger) :
    id r = next_id l ->
    ledger_step l (l ++ [r]).

(** Row [i] exists and is claimed for a digest. *)
Definition claimed (i : Z) (l : ledger) : Prop :=
  exists m, row_of i l = Some m /\ included_in_summary m = true.

(** ** A summary run, as functions of the table

    The table and the events that one run of [generate_and_send_summary]
    leaves; [generate_and_send_summary_run] proves that the function
    computes them. *)

Definition run_total (cfg : SchedulerConfig) (e : summary_env) (l : ledger) : Z :=
  Z.of_nat (length
    (in_window (stats_now e - hours_delta (summary_interval_hours cfg)) l)).

Definition run_chats (cfg : SchedulerConfig) (e : summary_env) (l : ledger) : Z :=
  Z.of_nat (length (remove_dups
    (chat_id <$>
       in_window (stats_now e - hours_delta (summary_interval_hours cfg)) l))).

(** The rows that the selection query of the run picks. *)
Definition run_picked (cfg : SchedulerConfig) (e : summary_env)
    (l : ledger) : list Message :=
  selection cfg (select_now e - hours_delta (summary_interval_hours cfg))
            (max_messages_per_summary cfg) l.

(** The list that the run gets from [get_unlabeled_messages]: the picked
    rows, as the update has marked them. *)
Definition run_selection (cfg : SchedulerConfig) (e : summary_env)
    (l : ledger) : list Message :=
  set_summary (claim_now e) <$> run_picked cfg e l.

(** The handler of the [except] clause. *)
Definition report_failure : list event :=
  [Log ERROR; SendSimpleMessage ErrorReport].

Definition summary_db (cfg : SchedulerConfig) (e : summary_env)
    (l : ledger) : ledger :=
  if stats_ok e && negb (run_total cfg e l =? 0) && select_ok e
  then claim (run_selection cfg e l) (claim_now e) l
  else l.

Definition summary_events (cfg : SchedulerConfig) (e : summary_env)
    (l : ledger) : list event :=
  let hours := summary_interval_hours cfg in
  Log INFO ::
  if stats_ok e then
    if run_total cfg e l =? 0 then
      Log INFO :: SendSimpleMessage (Quiet hours) ::
      (if bot_up e && negb (deliver_ok e) then report_failure else [])
    else if select_ok e then
      match run_selection cfg e l with
      | [] =>
          Log INFO :: SendSimpleMessage (AllClear hours (run_total cfg e l)) ::
          (if bot_up e && negb (deliver_ok e) then report_failure else [])
      | _ :: _ =>
          SendSummary (run_selection cfg e l) (run_total cfg e l)
                      (run_chats cfg e l) hours ::
          (if bot_up e && deliver_ok e then [Log INFO] else report_failure)
      end
    else report_failure
  else report_failure.

(** ** A label callback, as functions of the table

    The outcome of the parsing steps of [handle_label_callback], and the
    result, table and events that one callback leaves;
    [handle_label_callback_run] proves that the function computes them. *)

Inductive callback :=
| Malformed                 (* not three parts, or not a [label] callback *)
| NotAnInteger              (* [int] raised [ValueError] *)
| BadLabel                  (* a label other than high, medium, low *)
| Request (message_id : Z) (label : string).

Definition parse_callback (data : string) : callback :=
  match split ":" data with
  | [p0; message_id_str; label] =>
      if negb (String.eqb p0 "label") then Malformed
      else
        match int message_id_str with
        | None => NotAnInteger
        | Some message_id =>
            if negb (valid_label label) then BadLabel
            else Request message_id label
        end
  | _ => Malformed
  end.

(** The handler of the [except] clause. *)
Definition reply_failure : list event :=
  [Log ERROR; EditMessageText ErrorReply].

Definition label_db (e : label_env) (data : string) (l : ledger) : ledger :=
  if answer_ok e then
    match parse_callback data with
    | Request i lab =>
        match sql_select (fun m => id m =? i) l with
        | [_] =>
            if session_ok e
            then sql_update (fun m => id m =? i) (set_label lab (label_now e)) l
            else l
        | _ => l
        end
    | _ => l
    end
  else l.

Definition label_events (e : label_env) (data : string) (l : ledger)
    : list event :=
  QueryAnswer ::
  if answer_ok e then
    match parse_callback data with
    | Malformed | BadLabel => [Log WARNING]
    | NotAnInteger => reply_failure
    | Request i lab =>
        match sql_select (fun m => id m =? i) l with
        | [] =>
            EditMessageText NotFound ::
            (if edit_ok e && session_ok e then [] else reply_failure)
        | [_] =>
            if session_ok e then
              EditMessageText (Confirmation lab) ::
              (if edit_ok e then [Log INFO] else reply_failure)
            else reply_failure
        | _ => reply_failure
        end
    end
  else [].

(** Whether the handler of the [except] clause ran. *)
Definition label_handler_ran (e : label_env) (data : string) (l : ledger)
    : bool :=
  match parse_callback data with
  | Malformed | BadLabel => false
  | NotAnInteger => true
  | Request i lab =>
      match sql_select (fun m => id m =? i) l with
      | [] => negb (edit_ok e && session_ok e)
      | [_] => negb (session_ok e && edit_ok e)
      | _ => true
      end
  end.

Definition label_result (e : label_env) (data : string) (l : ledger)
    : result unit :=
  if answer_ok e then
    if label_handler_ran e data l && negb (edit_error_ok e)
    then Raised else Ok tt
  else Raised.

(** ** Reference predicates for the mention check *)

Fixpoint all_word (s : string) : bool :=
  match s with
  | EmptyString => true
  | String c r => is_word c && all_word r
  end.

(** The text contains a token [@] followed by one or more word
    characters. *)
Definition has_mention_token (t : string) : Prop :=
  exists pre w post,
    t = (pre ++ String "@" (w ++ post))%string
    /\ w <> EmptyString /\ all_word w = true.

(** The text contains [@username] when both are compared without regard
    to case, as the specification words the username check. *)
Definition contains_username_ci (t username : string) : bool :=
  contains (lower (String "@" username)) (lower t).

(** ** Concrete inputs for the scenarios *)

Definition scenario_cfg : SchedulerConfig :=
  {| summary_interval_hours := 4; max_messages_per_summary := 10;
     min_priority_score := 1; warning_threshold_score := 5 |}.

Definition scenario_intake_env : intake_env :=
  {| ollama := None; persist_ok := true; bot_app := true; send_ok := true;
     mark_ok := true; sent_at := 1001 |}.

Definition scenario_text : option string :=
  Some "@bob could you send the report before our meeting?".

(** A clock reading, [h] hours and [mi] minutes after the epoch. *)
Definition at_time (h mi : Z) : Z := hours_delta h + mi * 60000000.

(** A stored row with the given id, chat, capture time and score. *)
Definition scenario_row (i chat ts score : Z) : Message :=
  new_row i (100 + i) chat None "group" 7 None (Some "hello") ts
          false false 5 score None.

Definition scenario_summary_env : summary_env :=
  {| bot_up := true; stats_ok := true; select_ok := true;
     deliver_ok := true; report_ok := true;
     stats_now := at_time 20 0; select_now := at_time 20 0;
     claim_now := at_time 20 1 |}.

(** Scenario B: twelve captures inside the four-hour window, three of
    them with score 0. *)
Definition scenario_B : ledger :=
  [ scenario_row 1 50 (at_time 17 0) 3;
    scenario_row 2 50 (at_time 17 5) 0;
    scenario_row 3 51 (at_time 17 10) 5;
    scenario_row 4 51 (at_time 17 30) 3;
    scenario_row 5 52 (at_time 18 0) 1;
    scenario_row 6 52 (at_time 18 15) 0;
    scenario_row 7 50 (at_time 18 20) 8;
    scenario_row 8 53 (at_time 18 40) 5;
    scenario_row 9 53 (at_time 19 0) 2;
    scenario_row 10 51 (at_time 19 10) 0;
    scenario_row 11 50 (at_time 19 30) 3;
    scenario_row 12 52 (at_time 19 45) 7 ].

(** Scenario D: five captures, each labeled or claimed in an earlier
    cycle. *)
Definition scenario_D : ledger :=
  [ set_label "high" (at_time 18 0) (scenario_row 1 50 (at_time 17 0) 3);
    set_summary (at_time 16 1) (scenario_row 2 50 (at_time 17 5) 5);
    set_label "low" (at_time 18 0) (scenario_row 3 51 (at_time 17 10) 5);
    set_summary (at_time 16 1) (scenario_row 4 51 (at_time 17 30) 3);
    set_summary (at_time 16 1)
      (set_label "medium" (at_time 18 0) (scenario_row 5 52 (at_time 18 0) 1)) ].

(** A delivery that fails while the bot is running. *)
Definition failing_delivery_env : summary_env :=
  {| bot_up := true; stats_ok := true; select_ok := true;
     deliver_ok := false; report_ok := true;
     stats_now := at_time 20 0; select_now := at_time 20 0;
     claim_now := at_time 20 1 |}.

(** A later cycle, four hours on. *)
Definition later_summary_env : summary_env :=
  {| bot_up := true; stats_ok := true; select_ok := true;
     deliver_ok := true; report_ok := true;
     stats_now := at_time 22 0; select_now := at_time 22 0;
     claim_now := at_time 22 1 |}.

Definition scenario_label_env : label_env :=
  {| answer_ok := true; session_ok := true; edit_ok := true;
     edit_error_ok := true; label_now := at_time 21 0 |}.

(** ** utils.py: text helpers *)

(** [str(n)] for an [int]: the decimal digits, with a leading minus sign
    for a negative number. *)
Definition str_of_int (n : Z) : string :=
  DecimalString.NilZero.string_of_int (Z.to_int n).

(** The first [n] characters. *)
Fixpoint take_string (n : nat) (s : string) : string :=
  match n, s with
  | S n', String c r => String c (take_string n' r)
  | _, _ => EmptyString
  end.

(** The slice [s[:k]]: a negative [k] counts from the end. *)
Definition slice_to (k : Z) (s : string) : string :=
  if k <? 0 then take_string (Z.to_nat (len s + k)) s
  else take_string (Z.to_nat k) s.

Definition truncate_text (text : option string) (max_length : Z) : string :=
  match text with
  | None => "[No text]"
  | Some s =>
      if negb (truthy text) then "[No text]"
      else if len s <=? max_length then s
      else (slice_to (max_length - 3) s ++ "...")%string
  end.

Definition get_priority_from_score (score : Z) : string :=
  if 5 <=? score then "high"
  else if 3 <=? score then "medium"
  else "low".

Definition backslash : ascii := "092"%char.

Definition special_chars : list ascii :=
  [ "_"; "*"; "["; "]"; "("; ")"; "~"; "`"; ">"; "#"; "+"; "-"; "=";
    "|"; "{"; "}"; "."; "!" ]%char.

(** [s.replace(old, new)] for a one-character [old]. *)
Fixpoint replace_char (old : ascii) (new : string) (s : string) : string :=
  match s with
  | EmptyString => EmptyString
  | String c r =>
      if Ascii.eqb c old then (new ++ replace_char old new r)%string
      else String c (replace_char old new r)
  end.

(** The loop [for char in special_chars: text = text.replace(...)]. *)
Definition escape_markdown (text : string) : string :=
  fold_left
    (fun text char =>
       replace_char char (String backslash (String char EmptyString)) text)
    special_chars text.

(** [sanitize_for_logging] *)
Definition sanitize_for_logging (text : option string) : string :=
  match text with
  | None => "[empty]"
  | Some s =>
      if negb (truthy text) then "[empty]"
      else ("[" ++ str_of_int (len s) ++ " chars]")%string
  end.

(** ** bot.py and userbot.py: ids in strings *)

(** [create_priority_keyboard]: the callback data of the three buttons of
    the row, in their order; the captions of the buttons are left out. *)
Definition create_priority_keyboard (message_id : Z) : list string :=
  [ callback_data (str_of_int message_id) "high";
    callback_data (str_of_int message_id) "medium";
    callback_data (str_of_int message_id) "low" ].

(** [_get_bot_user_id]: [int(bot_token.split(":")[0])]; [None] is the
    [ValueError] of [int]. *)
Definition _get_bot_user_id (bot_token : string) : option Z :=
  match split ":" bot_token with
  | p0 :: _ => int p0
  | [] => None
  end.

(** The one-pass escaping that [escape_markdown] is compared with: a
    backslash before every special character. *)
Fixpoint escape_each (cs : list ascii) (s : string) : string :=
  match s with
  | EmptyString => EmptyString
  | String c r =>
      if existsb (Ascii.eqb c) cs
      then String backslash (String c (escape_each cs r))
      else String c (escape_each cs r)
  end.

(** The number of characters of [s] that are in [cs]. *)
Fixpoint count_in (cs : list ascii) (s : string) : Z :=
  match s with
  | EmptyString => 0
  | String c r => (if existsb (Ascii.eqb c) cs then 1 else 0) + count_in cs r
  end.

(** The order of the three labels. *)
Definition label_rank (l : string) : Z :=
  if String.eqb l "high" then 2
  else if String.eqb l "medium" then 1
  else 0.

(** The character [c] does not occur in [s]. *)
Fixpoint free_of (c : ascii) (s : string) : bool :=
  match s with
  | EmptyString => true
  | String d r => negb (Ascii.eqb d c) && free_of c r
  end.

(** ** Reference predicates for the rows of the table *)

(** What the code establishes for every row it stores, under the
    configuration [cfg]. *)
Record row_ok (cfg : SchedulerConfig) (m : Message) : Prop := mkRowOk {
  ok_id : 1 <= id m;
  ok_length : message_length m = text_length (message_text m);
  ok_question : is_question m = detect_question (message_text m);
  ok_mention :
    exists username, has_mention m = detect_mention (message_text m) username;
  ok_score :
    exists hp, priority_score m
               = calculate_priority_score (message_text m) (has_mention m)
                                          (is_question m) hp;
  ok_topic : text_length (message_text m) < 10 -> topic_summary m = None;
  ok_label : match label m with
             | None => labeled_at m = None
             | Some l => valid_label l = true /\ labeled_at m <> None
             end;
  ok_summary : match summary_sent_at m with
               | None => included_in_summary m = false
               | Some _ => included_in_summary m = true
               end;
  ok_warning : match warning_sent_at m with
               | None => warning_sent m = false
               | Some _ => warning_sent m = true
                           /\ warning_threshold_score cfg <= priority_score m
               end
}.

(** Row [m'] is row [m] at a later time: the captured data are the same,
    and a label, a claim or an alert mark that [m] has are still there. *)
Record row_evolves (m m' : Message) : Prop := mkRowEvolves {
  ev_id : id m' = id m;
  ev_telegram_message_id : telegram_message_id m' = telegram_message_id m;
  ev_chat_id : chat_id m' = chat_id m;
  ev_chat_title : chat_title m' = chat_title m;
  ev_chat_type : chat_type m' = chat_type m;
  ev_user_id : user_id m' = user_id m;
  ev_user_name : user_name m' = user_name m;
  ev_message_text : message_text m' = message_text m;
  ev_timestamp : timestamp m' = timestamp m;
  ev_has_mention : has_mention m' = has_mention m;
  ev_is_question : is_question m' = is_question m;
  ev_message_length : message_length m' = message_length m;
  ev_priority_score : priority_score m' = priority_score m;
  ev_topic_summary : topic_summary m' = topic_summary m;
  ev_label : label m <> None -> label m' <> None;
  ev_included :
    included_in_summary m = true -> included_in_summary m' = true;
  ev_warning : warning_sent m = true -> warning_sent m' = true
}.

(** One change of the table that keeps the captured data: an update whose
    rows evolve, or the insertion of a row under the next id. *)
Inductive ledger_change : ledger -> ledger -> Prop :=
| change_update (g : Message -> Message) (l : ledger) :
    (forall m, row_evolves m (g m)) ->
    ledger_change l (g <$> l)
| change_insert (r : Message) (l : ledger) :
    id r = next_id l ->
    ledger_change l (l ++ [r]).

(** The ids of the messages for which an alert was sent to Telegram, in
    the order of the trace. *)
Definition warned (tr : list event) : list Z :=
  omap (fun ev => match ev with
                  | BotSendWarning j => Some j
                  | _ => None
                  end) tr.

(** ** userbot.py: the handler of new messages *)

(** The Telegram entities that the handler tells apart with
    [isinstance]. *)
Inductive entity :=
| User (uid : Z) (first_name last_name : option string)
| Chat (gid : Z) (title : string)
| Channel (cid : Z) (title : string) (megagroup : bool)
| OtherEntity (eid : Z).

(** [entity.id] *)
Definition entity_id (x : entity) : Z :=
  match x with
  | User i _ _ => i
  | Chat i _ => i
  | Channel i _ _ => i
  | OtherEntity i => i
  end.

Definition get_chat_type (chat : option entity) : string :=
  match chat with
  | Some (User _ _ _) => "private"
  | Some (Chat _ _) => "group"
  | Some (Channel _ _ megagroup) =>
      if megagroup then "supergroup" else "channel"
  | _ => "unknown"
  end.

(** An incoming message event, with what [event.get_chat()] and
    [event.get_sender()] answer; [nm_fetch_ok] tells whether these two
    calls return. *)
Record new_message := mkNewMessage {
  nm_message_id : Z;
  nm_text : option string;
  nm_date : Z;
  nm_chat_id : Z;
  nm_chat : option entity;
  nm_sender : option entity;
  nm_fetch_ok : bool
}.

(** The formatting of an optional string in an f-string. *)
Definition format_optional (s : option string) : string :=
  match s with
  | Some s => s
  | None => "None"
  end.

(** [x or ''] for an optional string. *)
Definition or_empty (s : option string) : string :=
  match s with
  | Some s => s
  | None => EmptyString
  end.

(** The sender name and sender id that the handler passes on; the
    concatenation raises when the first name is absent and the last name
    is not. *)
Definition sender_fields (sender : option entity)
    : M (option string * Z) :=
  match sender with
  | Some (User i first_name last_name) =>
      if truthy last_name then
        match first_name with
        | Some f =>
            mret (Some (f ++ " " ++ or_empty last_name)%string, i)
        | None => raise
        end
      else mret (first_name, i)
  | Some other => mret (None, entity_id other)
  | None => mret (None, 0)
  end.

Definition chat_title_of (chat : option entity) : option string :=
  match chat with
  | Some (Chat _ title) => Some title
  | Some (Channel _ title _) => Some title
  | Some (User _ first_name last_name) =>
      Some (strip (format_optional first_name ++ " " ++ or_empty last_name))
  | _ => None
  end.

(** [handle_new_message] of [start_userbot], with the variables of the
    enclosing function ([client_username], [client_user_id]) and the bot
    token of the configuration as arguments. *)
Definition handle_new_message (cfg : SchedulerConfig) (hp : list Z)
    (e : intake_env) (bot_token : string)
    (client_username : option string) (client_user_id : option Z)
    (event : new_message) : M unit :=
  try_except
    (if negb (nm_fetch_ok event) then raise
     else
       let chat := nm_chat event in
       let sender := nm_sender event in
       if match sender with
          | Some s => bool_decide (Some (entity_id s) = client_user_id)
          | None => false
          end
       then mret tt
       else
         match _get_bot_user_id bot_token with
         | None => raise
         | Some bot_user_id =>
             if match sender with
                | Some s => entity_id s =? bot_user_id
                | None => false
                end
             then mret tt
             else if negb (truthy (nm_text event)) then mret tt
             else
               '(user_name, user_id) ← sender_fields sender;
               save_message cfg hp e (nm_message_id event)
                 (nm_chat_id event) (chat_title_of chat)
                 (get_chat_type chat) user_id user_name (nm_text event)
                 (nm_date event) client_username
         end)
    (log ERROR).

(** [refresh_high_priority_users]: the new cache and the level of the log
    line; [table] holds the [user_id] column of the stored high-priority
    users, [query_ok] tells whether the query returns and [commit_ok]
    whether the session then commits. The cache is assigned inside the
    session block, before the commit: a failing commit leaves the new
    cache in place and logs an error. *)
Definition refresh_high_priority_users (query_ok commit_ok : bool)
    (table cache : list Z) : list Z * level :=
  if query_ok
  then (remove_dups table, if commit_ok then INFO else ERROR)
  else (cache, ERROR).

(** ** bot.py: the commands *)

(** The numbers that [handle_stats_command] reports. *)
Record statistics := mkStatistics {
  st_total : Z;
  st_recent : Z;
  st_labeled : Z;
  st_high : Z;
  st_medium : Z;
  st_low : Z;
  st_unlabeled : Z
}.

(** The texts that the commands write with [update.message.reply_text]. *)
Inductive command_reply :=
| ReplyPrivate
| ReplyWelcome (hours : Z)
| ReplyGenerating
| ReplyStatistics (s : statistics)
| ReplyStatisticsError
| ReplySettings (cfg : SchedulerConfig).

(** [update.message.reply_text]: the replies that a command has written
    are the value it returns; [ok] tells whether the call returns. *)
Definition reply_text (ok : bool) (r : command_reply) : M (list command_reply) :=
  if ok then mret [r] else raise.

(** [select(func.count(Message.id)).where(cond)] *)
Definition sql_count (cond : Message -> bool) (l : ledger) : Z :=
  Z.of_nat (length (sql_select cond l)).

Definition label_is (v : string) (m : Message) : bool :=
  match label m with
  | Some l => String.eqb l v
  | None => false
  end.

Definition handle_start_command (cfg : SchedulerConfig)
    (client_user_id user : Z) (reply_ok : bool) : M (list command_reply) :=
  if negb (user =? client_user_id) then reply_text reply_ok ReplyPrivate
  else reply_text reply_ok (ReplyWelcome (summary_interval_hours cfg)).

Definition handle_summary_command (cfg : SchedulerConfig)
    (client_user_id user : Z) (reply_ok : bool) (e : summary_env)
    : M (list command_reply) :=
  if negb (user =? client_user_id) then mret []
  else
    replies ← reply_text reply_ok ReplyGenerating;
    generate_and_send_summary cfg e ;;
    mret replies.

Definition handle_stats_command (client_user_id user : Z)
    (session_ok reply_ok reply_error_ok : bool) (now : Z)
    : M (list command_reply) :=
  if negb (user =? client_user_id) then mret []
  else
    try_except
      (s ← with_session session_ok
         (total ← read (sql_count (fun _ => true));
          recent ← read (sql_count
                     (fun m => now - hours_delta 24 <=? timestamp m));
          labeled ← read (sql_count
                     (fun m => match label m with
                               | Some _ => true
                               | None => false
                               end));
          high_count ← read (sql_count (label_is "high"));
          medium_count ← read (sql_count (label_is "medium"));
          low_count ← read (sql_count (label_is "low"));
          mret (mkStatistics total recent labeled high_count medium_count
                             low_count (total - labeled)));
       reply_text reply_ok (ReplyStatistics s))
      (log ERROR ;; reply_text reply_error_ok ReplyStatisticsError).

Definition handle_settings_command (cfg : SchedulerConfig)
    (client_user_id user : Z) (reply_ok : bool) : M (list command_reply) :=
  if negb (user =? client_user_id) then mret []
  else reply_text reply_ok (ReplySettings cfg).

(** ** database.py: the database URL *)

(** The rest of [s] after its first [n] characters. *)
Fixpoint drop_string (n : nat) (s : string) : string :=
  match n, s with
  | S n', String _ r => drop_string n' r
  | _, _ => s
  end.

(** [s.replace(old, new, 1)] for a non-empty [old]: the leftmost
    occurrence is replaced. *)
Fixpoint replace_first (old new s : string) : string :=
  if String.prefix old s
  then (new ++ drop_string (String.length old) s)%string
  else
    match s with
    | EmptyString => EmptyString
    | String c r => String c (replace_first old new r)
    end.

Definition _convert_database_url (url : string) : string :=
  if String.prefix "sqlite:///" url
  then replace_first "sqlite:///" "sqlite+aiosqlite:///" url
  else if String.prefix "postgresql://" url
  then replace_first "postgresql://" "postgresql+asyncpg://" url
  else if String.prefix "postgres://" url
  then replace_first "postgres://" "postgresql+asyncpg://" url
  else url.

Definition _is_sqlite (url : string) : bool := contains "sqlite" (lower url).

(** * Properties *)

(** ** The scorer *)

Lemma long_text_flag (text : option string) :
  match text with
  | Some s => truthy text && (MIN_LONG_MESSAGE_LENGTH <? len s)
  | None => false
  end = (100 <? text_length text).
Proof.
  destruct text as [[|c s]|]; reflexivity.
Qed.

Lemma calculate_priority_score_sum text m q hp :
  calculate_priority_score text m q hp
  = 3 * Z.b2z m + 2 * Z.b2z q + 1 * Z.b2z (100 <? text_length text)
    + 2 * Z.b2z hp.
Proof.
  rewrite <- long_text_flag. unfold calculate_priority_score.
  destruct text as [s|].
  - destruct (truthy (Some s) && (MIN_LONG_MESSAGE_LENGTH <? len s));
      destruct m, q, hp; reflexivity.
  - destruct m, q, hp; reflexivity.
Qed.

Lemma calculate_priority_score_range text m q hp :
  0 <= calculate_priority_score text m q hp <= 8.
Proof.
  rewrite calculate_priority_score_sum.
  destruct m, q, hp, (100 <? text_length text); simpl; lia.
Qed.

(** C4. The score is the weighted sum 3·[mention] + 2·[question] +
    1·[text length > 100] + 2·[high-priority sender], for every input (the
    function is total and has no effect), and it is 0 when every flag is
    false and the text is at most 100 characters long. *)
Theorem calculate_priority_score_weights :
  (forall text m q hp,
     calculate_priority_score text m q hp
     = 3 * Z.b2z m + 2 * Z.b2z q + 1 * Z.b2z (100 <? text_length text)
       + 2 * Z.b2z hp)
  /\ (forall text,
        text_length text <= 100 ->
        calculate_priority_score text false false false = 0).
Proof.
  split.
  - apply calculate_priority_score_sum.
  - intros text Hshort. rewrite calculate_priority_score_sum.
    apply Z.ltb_ge in Hshort. rewrite Hshort. reflexivity.
Qed.

Lemma calculate_priority_score_weights_witness :
  text_length (Some "ok") <= 100
  /\ calculate_priority_score (Some "ok") false false false = 0.
Proof.
  assert (H : text_length (Some "ok") <= 100) by (vm_compute; discriminate).
  split; [exact H |].
  exact (proj2 calculate_priority_score_weights (Some "ok") H).
Defined.

(** The boundary lengths 99, 100 and 101. *)
Example score_at_length_99 :
  calculate_priority_score (text_of_length 99) false false false = 0.
Proof. reflexivity. Qed.

Example score_at_length_100 :
  calculate_priority_score (text_of_length 100) false false false = 0.
Proof. reflexivity. Qed.

Example score_at_length_101 :
  calculate_priority_score (text_of_length 101) false false false = 1.
Proof. reflexivity. Qed.

(** C9. With the text and the two other flags fixed, turning the mention
    flag, the question flag or the high-priority flag from false to true
    never lowers the score. *)
Theorem calculate_priority_score_monotone (text : option string) (m q hp : bool) :
  calculate_priority_score text false q hp
    <= calculate_priority_score text true q hp
  /\ calculate_priority_score text m false hp
    <= calculate_priority_score text m true hp
  /\ calculate_priority_score text m q false
    <= calculate_priority_score text m q true.
Proof.
  rewrite !calculate_priority_score_sum.
  destruct m, q, hp; simpl; lia.
Qed.

(** The same for the length: a longer text never scores lower. *)
Lemma calculate_priority_score_length_monotone t1 t2 m q hp :
  text_length t1 <= text_length t2 ->
  calculate_priority_score t1 m q hp <= calculate_priority_score t2 m q hp.
Proof.
  intros Hle. rewrite !calculate_priority_score_sum.
  destruct (Z.ltb_spec 100 (text_length t1)), (Z.ltb_spec 100 (text_length t2));
    simpl; lia.
Qed.

(** ** The intake pipeline *)

Ltac run_monad :=
  unfold try_except, with_session, call, log, emit, read, write, raise,
    mbind, M_bind, mret, M_ret; simpl.

Lemma send_warning_for_message_run e i s w :
  send_warning_for_message e i s w =
  if bot_app e then
    if send_ok e then
      if mark_ok e then
        (Ok tt,
         mkWorld (sql_update (fun m => id m =? i) (set_warning (sent_at e)) (db w))
                 (trace w ++ [SendWarningCall i s; BotSendWarning i; Log INFO]))
      else
        (Ok tt,
         mkWorld (db w)
                 (trace w ++ [SendWarningCall i s; BotSendWarning i; Log ERROR]))
    else
      (Ok tt,
       mkWorld (db w)
               (trace w ++ [SendWarningCall i s; BotSendWarning i; Log ERROR]))
  else
    (Ok tt, mkWorld (db w) (trace w ++ [SendWarningCall i s; Log WARNING])).
Proof.
  unfold send_warning_for_message. run_monad.
  destruct (bot_app e), (send_ok e), (mark_ok e); simpl;
    rewrite <- ?app_assoc; reflexivity.
Qed.

Lemma save_message_run cfg hp e tid cid title type uid name text ts cu w :
  let i := next_id (db w) in
  let s := intake_score hp uid text cu in
  let row := intake_row hp e i tid cid title type uid name text ts cu in
  save_message cfg hp e tid cid title type uid name text ts cu w =
  if persist_ok e then
    if warning_threshold_score cfg <=? s then
      if bot_app e then
        if send_ok e && mark_ok e then
          (Ok tt,
           mkWorld (sql_update (fun m => id m =? i) (set_warning (sent_at e))
                               (db w ++ [row]))
                   (trace w ++ [SendWarningCall i s; BotSendWarning i;
                                Log INFO; Log DEBUG]))
        else
          (Ok tt,
           mkWorld (db w ++ [row])
                   (trace w ++ [SendWarningCall i s; BotSendWarning i;
                                Log ERROR; Log DEBUG]))
      else
        (Ok tt,
         mkWorld (db w ++ [row])
                 (trace w ++ [SendWarningCall i s; Log WARNING; Log DEBUG]))
    else (Ok tt, mkWorld (db w ++ [row]) (trace w ++ [Log DEBUG]))
  else (Ok tt, mkWorld (db w) (trace w ++ [Log ERROR])).
Proof.
  intros i s row. unfold save_message, insert_row, send_warning_for_message.
  run_monad.
  fold (intake_score hp uid text cu). fold s.
  fold (intake_row hp e (next_id (db w)) tid cid title type uid name text ts cu).
  fold i. fold row.
  destruct (persist_ok e); simpl; [| reflexivity].
  destruct (warning_threshold_score cfg <=? s); simpl; [| reflexivity].
  destruct (bot_app e), (send_ok e), (mark_ok e); simpl;
    rewrite <- ?app_assoc; reflexivity.
Qed.

Lemma emitted_app {A} (m : M A) w tr :
  trace (exec m w) = trace w ++ tr -> emitted m w = tr.
Proof.
  intros H. unfold emitted. rewrite H. apply drop_app_length.
Qed.

Lemma next_id_fresh (l : ledger) (m : Message) :
  m ∈ l -> id m < next_id l.
Proof.
  unfold next_id. induction 1 as [m l | m m' l _ IH];
    rewrite fmap_cons; cbn [foldr]; lia.
Qed.

Lemma row_of_app_fresh (l : ledger) (r : Message) :
  id r = next_id l -> row_of (next_id l) (l ++ [r]) = Some r.
Proof.
  intros Hr. unfold row_of.
  pose proof (next_id_fresh l) as Hfresh.
  revert Hr Hfresh. generalize (next_id l) as i. intros i Hr Hfresh.
  induction l as [|m l IH]; simpl.
  - rewrite Hr, Z.eqb_refl. reflexivity.
  - destruct (Z.eqb_spec (id m) i) as [Heq|Hne].
    + specialize (Hfresh m (list_elem_of_here _ _)). lia.
    + apply IH. intros m' Hm'. apply Hfresh. by apply list_elem_of_further.
Qed.

Lemma row_of_sql_update i c f (l : ledger) :
  (forall m, id (f m) = id m) ->
  row_of i (sql_update c f l) = (fun m => if c m then f m else m) <$> row_of i l.
Proof.
  intros Hid. unfold row_of, sql_update.
  induction l as [|m l IH]; simpl; [reflexivity |].
  assert (Hm : id (if c m then f m else m) = id m)
    by (destruct (c m); [apply Hid | reflexivity]).
  rewrite Hm. destruct (id m =? i); [reflexivity | apply IH].
Qed.

(** Closes [x ∉ l] and [x ∈ l -> _] for an explicit list [l] without [x]. *)
Ltac absent :=
  let H := fresh "H" in
  intros H;
  repeat (apply elem_of_cons in H as [H|H]; [discriminate H |]);
  by apply elem_of_nil in H.

Lemma save_message_trace cfg hp e tid cid title type uid name text ts cu w :
  trace (exec (save_message cfg hp e tid cid title type uid name text ts cu) w)
  = trace w
    ++ emitted (save_message cfg hp e tid cid title type uid name text ts cu) w.
Proof.
  unfold emitted, exec. rewrite save_message_run.
  destruct (persist_ok e),
    (warning_threshold_score cfg <=? intake_score hp uid text cu),
    (bot_app e), (send_ok e && mark_ok e); simpl; by rewrite drop_app_length.
Qed.

(** C5. For a capture whose row is persisted, [send_warning_for_message] is
    called if and only if the score is at least the warning threshold (so
    a score equal to the threshold alerts and a score one below does not);
    with the bot running the Telegram send of the alert is attempted under
    the same condition; and the row has [warning_sent] set exactly when
    that send returned and the update that follows it was committed. *)
Theorem save_message_warning_boundary
    cfg hp e tid cid title type uid name text ts cu w :
  persist_ok e = true ->
  let i := next_id (db w) in
  let s := intake_score hp uid text cu in
  let run := save_message cfg hp e tid cid title type uid name text ts cu in
  (SendWarningCall i s ∈ emitted run w <-> warning_threshold_score cfg <= s)
  /\ (bot_app e = true ->
      (BotSendWarning i ∈ emitted run w <-> warning_threshold_score cfg <= s))
  /\ exists m,
       row_of i (db (exec run w)) = Some m
       /\ priority_score m = s
       /\ (warning_sent m = true <->
           warning_threshold_score cfg <= s /\ bot_app e = true
           /\ send_ok e = true /\ mark_ok e = true)
       /\ (warning_sent m = true ->
           send_ok e = true /\ BotSendWarning i ∈ emitted run w).
Proof.
  intros Hp i s run.
  pose proof (save_message_run cfg hp e tid cid title type uid name text ts cu w)
    as Hrun.
  cbv zeta in Hrun. fold i s run in Hrun. rewrite Hp in Hrun.
  set (row := intake_row hp e i tid cid title type uid name text ts cu) in *.
  assert (Hrow : row_of i (db w ++ [row]) = Some row)
    by (apply row_of_app_fresh; reflexivity).
  assert (Hupd : row_of i (sql_update (fun m => id m =? i)
                             (set_warning (sent_at e)) (db w ++ [row]))
                 = Some (set_warning (sent_at e) row)).
  { rewrite row_of_sql_update by reflexivity. rewrite Hrow. simpl.
    by rewrite Z.eqb_refl. }
  destruct (Z.leb_spec (warning_threshold_score cfg) s) as [Hge|Hlt].
  - destruct (bot_app e) eqn:Hbot.
    + destruct (send_ok e) eqn:Hsend, (mark_ok e) eqn:Hmark; simpl in Hrun.
      all: rewrite (emitted_app run w _ (f_equal (fun r => trace (snd r)) Hrun)).
      all: unfold exec; rewrite Hrun; simpl.
      all: split; [split; [done | intros _; set_solver] |].
      all: split; [intros _; split; [done | intros _; set_solver] |].
      * exists (set_warning (sent_at e) row). rewrite Hupd.
        split; [done |]. split; [done |]. split; [done |].
        intros _. split; [done | set_solver].
      * exists row. rewrite Hrow. split; [done |]. split; [done |].
        simpl. split; [split; [done | intros (_ & _ & _ & ?); done] | done].
      * exists row. rewrite Hrow. split; [done |]. split; [done |].
        simpl. split; [split; [done | intros (_ & _ & ? & _); done] | done].
      * exists row. rewrite Hrow. split; [done |]. split; [done |].
        simpl. split; [split; [done | intros (_ & _ & ? & _); done] | done].
    + simpl in Hrun.
      rewrite (emitted_app run w _ (f_equal (fun r => trace (snd r)) Hrun)).
      unfold exec; rewrite Hrun; simpl.
      split; [split; [done | intros _; set_solver] |].
      split; [done |].
      exists row. rewrite Hrow. split; [done |]. split; [done |].
      simpl. split; [split; [done | intros (_ & ? & _); done] | done].
  - rewrite (emitted_app run w _ (f_equal (fun r => trace (snd r)) Hrun)).
    unfold exec; rewrite Hrun; simpl.
    split; [split; [absent | lia] |].
    split; [intros _; split; [absent | lia] |].
    exists row. rewrite Hrow. split; [done |]. split; [done |].
    simpl. split; [split; [done | lia] | done].
Qed.

Lemma save_message_warning_boundary_witness :
  persist_ok scenario_intake_env = true
  /\ (SendWarningCall 1 5
        ∈ emitted (save_message scenario_cfg [] scenario_intake_env 900 77 None
                     "private" 42 (Some "Ann") scenario_text 1000 (Some "bob"))
                  (mkWorld [] [])
      <-> warning_threshold_score scenario_cfg <= 5).
Proof.
  split; [reflexivity |].
  exact (proj1 (save_message_warning_boundary scenario_cfg [] scenario_intake_env
                  900 77 None "private" 42 (Some "Ann") scenario_text 1000
                  (Some "bob") (mkWorld [] []) eq_refl)).
Defined.

(** Scenario A of the specification: threshold 5, a mention and a
    question in a text of 50 characters score 5, and the alert is sent. *)
Example scenario_A :
  text_length scenario_text = 50
  /\ intake_score [] 42 scenario_text (Some "bob") = 5
  /\ emitted (save_message scenario_cfg [] scenario_intake_env 900 77 None
                "private" 42 (Some "Ann") scenario_text 1000 (Some "bob"))
             (mkWorld [] [])
     = [SendWarningCall 1 5; BotSendWarning 1; Log INFO; Log DEBUG].
Proof. repeat split; reflexivity. Qed.

(** One point below the threshold: no alert. *)
Example scenario_A_below :
  intake_score [] 42 (Some "@bob see you there") (Some "bob") = 3
  /\ emitted (save_message (mkSchedulerConfig 4 10 1 4) [] scenario_intake_env
                900 77 None "private" 42 (Some "Ann")
                (Some "@bob see you there") 1000 (Some "bob"))
             (mkWorld [] [])
     = [Log DEBUG].
Proof. split; reflexivity. Qed.

Lemma save_message_persist_failure
    cfg hp e tid cid title type uid name text ts cu w :
  persist_ok e = false ->
  save_message cfg hp e tid cid title type uid name text ts cu w
  = (Ok tt, mkWorld (db w) (trace w ++ [Log ERROR])).
Proof.
  intros Hp. rewrite save_message_run. cbv zeta. by rewrite Hp.
Qed.

(** C10. The score never exceeds 8 = 3 + 2 + 1 + 2; hence with a warning
    threshold above 8 no capture reaches the alert branch: neither
    [send_warning_for_message] nor the Telegram send of an alert occurs,
    and [save_message] sets no [warning_sent]. *)
Theorem score_ceiling_blocks_alert :
  (forall text m q hp, calculate_priority_score text m q hp <= 8)
  /\ (forall cfg hp e tid cid title type uid name text ts cu w,
        8 < warning_threshold_score cfg ->
        let run := save_message cfg hp e tid cid title type uid name text ts cu in
        (forall j s, SendWarningCall j s ∉ emitted run w)
        /\ (forall j, BotSendWarning j ∉ emitted run w)
        /\ (db (exec run w) = db w
            \/ db (exec run w)
               = db w ++ [intake_row hp e (next_id (db w)) tid cid title type
                                     uid name text ts cu])).
Proof.
  split; [intros; apply calculate_priority_score_range |].
  intros cfg hp e tid cid title type uid name text ts cu w Hthr run.
  pose proof (save_message_run cfg hp e tid cid title type uid name text ts cu w)
    as Hrun.
  cbv zeta in Hrun. fold run in Hrun.
  assert (Hlow : (warning_threshold_score cfg <=? intake_score hp uid text cu)
                 = false).
  { apply Z.leb_gt. unfold intake_score.
    pose proof (calculate_priority_score_range text
                  (detect_mention text cu) (detect_question text)
                  (bool_decide (uid ∈ hp))). lia. }
  rewrite Hlow in Hrun.
  destruct (persist_ok e).
  all: rewrite (emitted_app run w _ (f_equal (fun r => trace (snd r)) Hrun)).
  all: unfold exec; rewrite Hrun; simpl.
  all: split; [intros j s; absent |].
  all: split; [intros j; absent |].
  - by right.
  - by left.
Qed.

Lemma score_ceiling_blocks_alert_witness :
  8 < warning_threshold_score (mkSchedulerConfig 4 10 1 9)
  /\ forall j s,
       SendWarningCall j s
       ∉ emitted (save_message (mkSchedulerConfig 4 10 1 9) [42]
                    scenario_intake_env 900 77 None "private" 42 (Some "Ann")
                    scenario_text 1000 (Some "bob"))
                 (mkWorld [] []).
Proof.
  assert (H : 8 < warning_threshold_score (mkSchedulerConfig 4 10 1 9))
    by reflexivity.
  split; [exact H |].
  exact (proj1 (proj2 score_ceiling_blocks_alert (mkSchedulerConfig 4 10 1 9)
                  [42] scenario_intake_env 900 77 None "private" 42 (Some "Ann")
                  scenario_text 1000 (Some "bob") (mkWorld [] []) H)).
Defined.

(** ** The mention check *)

Lemma word_run_split (s : string) :
  exists rest, s = (word_run s ++ rest)%string /\ all_word (word_run s) = true.
Proof.
  induction s as [|c r [rest [Hr Hw]]]; simpl.
  - by exists EmptyString.
  - destruct (is_word c) eqn:Hc; simpl.
    + exists rest. rewrite Hc, Hw. by rewrite <- Hr.
    + by exists (String c r).
Qed.

Lemma match_mention_word (c : ascii) (r : string) :
  is_word c = true -> is_match (match_mention (String "@" (String c r))) = true.
Proof. intros Hc. simpl. by rewrite Hc. Qed.

Lemma search_mention_here (s : string) :
  is_match (match_mention s) = true -> is_match (search_mention s) = true.
Proof.
  destruct s as [|c r]; [done |].
  cbn [search_mention]. by destruct (match_mention (String c r)).
Qed.

Lemma search_mention_later (c : ascii) (r : string) :
  is_match (search_mention r) = true ->
  is_match (search_mention (String c r)) = true.
Proof.
  intros Hr. cbn [search_mention].
  by destruct (match_mention (String c r)).
Qed.

(** The search of the pattern finds a match exactly in the texts that
    contain a mention token. *)
Lemma search_mention_spec (t : string) :
  is_match (search_mention t) = true <-> has_mention_token t.
Proof.
  split.
  - induction t as [|c r IH].
    + discriminate.
    + cbn [search_mention].
      destruct (match_mention (String c r)) as [tok|] eqn:Hm.
      * intros _. unfold match_mention in Hm.
        destruct (Ascii.eqb_spec c "@") as [->|Hne].
        -- destruct (word_run_split r) as [rest [Hr Hw]].
           destruct (word_run r) as [|d w] eqn:Hrun; [discriminate |].
           exists EmptyString, (String d w), rest. simpl. by rewrite Hr at 1.
        -- destruct c as [[] [] [] [] [] [] [] []]; try discriminate.
           by destruct Hne.
      * intros Hr. destruct (IH Hr) as (pre & w & post & -> & Hw & Ha).
        by exists (String c pre), w, post.
  - intros (pre & w & post & -> & Hw & Ha).
    induction pre as [|c pre IH]; simpl append.
    + destruct w as [|d w]; [done |]. simpl in Ha.
      apply andb_true_iff in Ha as [Hd _].
      apply search_mention_here. simpl append. by apply match_mention_word.
    + by apply search_mention_later.
Qed.

Lemma prefix_spec (needle hay : string) :
  String.prefix needle hay = true <-> exists post, hay = (needle ++ post)%string.
Proof.
  revert hay. induction needle as [|a n IH]; intros hay.
  - destruct hay; simpl; split; eauto.
  - destruct hay as [|b h]; simpl.
    + split; [discriminate | intros [post Hp]; discriminate].
    + destruct (ascii_dec a b) as [->|Hne].
      * rewrite IH. split; intros [post Hp]; exists post; congruence.
      * split; [discriminate | intros [post Hp]; congruence].
Qed.

Lemma contains_spec (needle hay : string) :
  contains needle hay = true
  <-> exists pre post, hay = (pre ++ needle ++ post)%string.
Proof.
  split.
  - induction hay as [|c r IH]; cbn [contains].
    + rewrite orb_false_r. intros [post Hp]%prefix_spec.
      by exists EmptyString, post.
    + intros [[post Hp]%prefix_spec | Hr]%orb_true_iff.
      * by exists EmptyString, post.
      * destruct (IH Hr) as (pre & post & ->). by exists (String c pre), post.
  - intros (pre & post & ->).
    induction pre as [|c pre IH]; simpl append.
    + assert (Hp : String.prefix needle (needle ++ post)%string = true)
        by (apply prefix_spec; eauto).
      destruct (needle ++ post)%string; cbn [contains]; by rewrite Hp.
    + cbn [contains]. rewrite IH. apply orb_true_r.
Qed.

Lemma lower_char_at (x : ascii) : lower_char x = "@"%char -> x = "@"%char.
Proof.
  destruct x as [[] [] [] [] [] [] [] []]; vm_compute; congruence.
Qed.

Lemma is_word_lower_char (c : ascii) : is_word (lower_char c) = is_word c.
Proof.
  destruct c as [[] [] [] [] [] [] [] []]; vm_compute; reflexivity.
Qed.

(** Absent and empty texts have no mention. *)
Lemma detect_mention_absent (username : option string) :
  detect_mention None username = false
  /\ detect_mention (Some EmptyString) username = false.
Proof. split; reflexivity. Qed.

(** What the function computes on a present text. *)
Lemma detect_mention_cases (t : string) (username : option string) :
  detect_mention (Some t) username
  = (is_match (search_mention t)
     || match username with
        | Some u => truthy username && truthy (Some t)
                    && contains (String "@" u) (lower t)
        | None => false
        end).
Proof.
  unfold detect_mention.
  destruct t as [|c r]; [by destruct username as [[|]|] |].
  cbn [truthy negb].
  destruct username as [[|d u]|]; cbn [truthy]; simpl andb;
    rewrite ?orb_false_r; try reflexivity.
  apply orb_comm.
Qed.








(** A username outside those: [-Bob] starts with no word character and is
    not in lower case. The username check looks the username up as it was
    supplied in the lower-cased text, so the text [@-bob] is not found to
    mention it. *)
Example detect_mention_username_case_slip :
  contains_username_ci "@-bob" "-Bob" = true
  /\ contains (String "@" "-Bob") (lower "@-bob") = false
  /\ is_match (search_mention "@-bob") = false
  /\ detect_mention (Some "@-bob") (Some "-Bob") = false.
Proof. repeat split; reflexivity. Qed.

(** ** The batch selector *)

Lemma world_eta (w : world) : mkWorld (db w) (trace w) = w.
Proof. by destruct w. Qed.

Lemma claim_nil now (l : ledger) : claim [] now l = l.
Proof.
  unfold claim, sql_update.
  induction l as [|m l IH]; [done |].
  rewrite fmap_cons, IH. f_equal.
Qed.

Lemma set_summary_ids now (sel : list Message) :
  id <$> (set_summary now <$> sel) = id <$> sel.
Proof. rewrite <- list_fmap_compose. by apply list_fmap_ext. Qed.

Lemma claim_marked (sel : list Message) now (l : ledger) :
  claim (set_summary now <$> sel) now l = claim sel now l.
Proof. unfold claim. by rewrite set_summary_ids. Qed.

Lemma get_unlabeled_messages_run cfg e hours limit w :
  let sel := selection cfg (select_now e - hours_delta hours) limit (db w) in
  get_unlabeled_messages cfg e hours limit w =
  if select_ok e
  then (Ok (set_summary (claim_now e) <$> sel),
        mkWorld (claim sel (claim_now e) (db w)) (trace w))
  else (Raised, w).
Proof.
  intros sel. unfold get_unlabeled_messages. run_monad.
  fold (selection cfg (select_now e - hours_delta hours) limit (db w)).
  fold sel.
  destruct sel as [|m sel'] eqn:Hsel; simpl.
  - rewrite claim_nil, world_eta. by destruct (select_ok e).
  - destruct (select_ok e); [reflexivity | by rewrite world_eta].
Qed.

Lemma get_message_stats_run e hours w :
  let rows := in_window (stats_now e - hours_delta hours) (db w) in
  get_message_stats e hours w =
  if stats_ok e
  then (Ok (Z.of_nat (length rows),
            Z.of_nat (length (remove_dups (chat_id <$> rows)))), w)
  else (Raised, w).
Proof.
  intros rows. unfold get_message_stats. run_monad.
  fold (in_window (stats_now e - hours_delta hours) (db w)). fold rows.
  destruct (stats_ok e); [reflexivity | by rewrite world_eta].
Qed.

Lemma generate_and_send_summary_run cfg e w :
  generate_and_send_summary cfg e w =
  (Ok tt, mkWorld (summary_db cfg e (db w))
                  (trace w ++ summary_events cfg e (db w))).
Proof.
  unfold generate_and_send_summary, summary_db, summary_events,
    send_simple_message, send_summary, report_failure.
  unfold try_except, log, emit, mbind, M_bind, mret, M_ret, raise.
  cbn [db trace].
  rewrite get_message_stats_run. cbv zeta. cbn [db trace].
  fold (run_total cfg e (db w)). fold (run_chats cfg e (db w)).
  destruct (stats_ok e); cbn [andb].
  2: { destruct (bot_up e), (report_ok e); simpl; by rewrite <- !app_assoc. }
  destruct (run_total cfg e (db w) =? 0) eqn:Htotal; cbn [negb andb].
  { destruct (bot_up e), (deliver_ok e), (report_ok e); simpl;
      by rewrite <- !app_assoc. }
  rewrite get_unlabeled_messages_run. cbv zeta. cbn [db trace].
  fold (run_picked cfg e (db w)).
  rewrite <- (claim_marked (run_picked cfg e (db w))).
  fold (run_selection cfg e (db w)).
  destruct (select_ok e).
  2: { destruct (bot_up e), (report_ok e); simpl; by rewrite <- !app_assoc. }
  destruct (run_selection cfg e (db w)) as [|m sel] eqn:Hsel; cbn [db trace].
  - rewrite claim_nil.
    destruct (bot_up e), (deliver_ok e), (report_ok e); simpl;
      by rewrite <- !app_assoc.
  - destruct (bot_up e), (deliver_ok e), (report_ok e); simpl;
      by rewrite <- !app_assoc.
Qed.

(** ** The label callback *)

Lemma handle_label_callback_run e data w :
  handle_label_callback e data w =
  (label_result e data (db w),
   mkWorld (label_db e data (db w)) (trace w ++ label_events e data (db w))).
Proof.
  unfold handle_label_callback, label_result, label_db, label_events,
    label_handler_ran, parse_callback, reply_failure, scalar_one_or_none.
  unfold try_except, with_session, call, log, emit, read, write, raise,
    mbind, M_bind, mret, M_ret.
  cbn [db trace].
  destruct (answer_ok e); [| reflexivity].
  destruct (split ":" data) as [|p0 [|mid [|lab [|x xs]]]];
    try (simpl; by rewrite <- ?app_assoc).
  destruct (String.eqb p0 "label"); cbn [negb];
    [| simpl; by rewrite <- ?app_assoc].
  destruct (int mid) as [i|].
  2: { destruct (edit_error_ok e); simpl; by rewrite <- ?app_assoc. }
  destruct (valid_label lab); cbn [negb];
    [| simpl; by rewrite <- ?app_assoc].
  cbn beta. cbn [db trace].
  destruct (sql_select (fun m => id m =? i) (db w)) as [|m [|m' rows]];
    cbn [db trace].
  - destruct (edit_ok e), (session_ok e), (edit_error_ok e); simpl;
      by rewrite <- ?app_assoc.
  - destruct (session_ok e), (edit_ok e), (edit_error_ok e); simpl;
      by rewrite <- ?app_assoc.
  - destruct (edit_error_ok e); simpl; by rewrite <- ?app_assoc.
Qed.

(** ** Rows, ids and the changes of the table *)

Lemma row_of_Some i (l : ledger) m :
  row_of i l = Some m -> m ∈ l /\ id m = i.
Proof.
  unfold row_of. intros H. apply find_some in H as [Hin Heq].
  split; [by apply list_elem_of_In | by apply Z.eqb_eq].
Qed.

Lemma row_of_fmap i (g : Message -> Message) (l : ledger) :
  (forall m, id (g m) = id m) ->
  row_of i (g <$> l) = g <$> row_of i l.
Proof.
  intros Hid. unfold row_of.
  induction l as [|m l IH]; [done |].
  rewrite fmap_cons. cbn [find]. rewrite Hid.
  destruct (id m =? i); [done | apply IH].
Qed.

Lemma row_of_app_old i (l r : ledger) m :
  row_of i l = Some m -> row_of i (l ++ r) = Some m.
Proof.
  unfold row_of. induction l as [|x l IH]; [done |].
  simpl. destruct (id x =? i); [done | apply IH].
Qed.

Lemma row_of_exists i (l : ledger) m :
  m ∈ l -> id m = i -> exists m', row_of i l = Some m'.
Proof.
  intros Hin Hid. unfold row_of.
  destruct (find (fun m => id m =? i) l) as [m'|] eqn:Hf; [by exists m' |].
  apply list_elem_of_In in Hin.
  apply (find_none _ _ Hf m) in Hin. by apply Z.eqb_neq in Hin.
Qed.

Lemma row_of_unique (l : ledger) m :
  pk_unique l -> m ∈ l -> row_of (id m) l = Some m.
Proof.
  unfold pk_unique, row_of. induction l as [|x l IH]; intros Hnd Hin.
  - by apply elem_of_nil in Hin.
  - rewrite fmap_cons in Hnd. apply NoDup_cons in Hnd as [Hx Hnd].
    simpl. destruct (Z.eqb_spec (id x) (id m)) as [Heq|Hne].
    + apply elem_of_cons in Hin as [->|Hin]; [done |].
      destruct Hx. rewrite Heq. by apply list_elem_of_fmap_2.
    + apply elem_of_cons in Hin as [->|Hin]; [done | by apply IH].
Qed.

Lemma sql_select_absent i (l : ledger) :
  (forall m, m ∈ l -> id m <> i) ->
  sql_select (fun m => id m =? i) l = [].
Proof.
  unfold sql_select. induction l as [|x l IH]; intros Hne; [done |].
  simpl. destruct (Z.eqb_spec (id x) i) as [Heq|_].
  - destruct (Hne x); [apply list_elem_of_here | done].
  - apply IH. intros m Hm. apply Hne. by apply list_elem_of_further.
Qed.

Lemma sql_select_unique i (l : ledger) m :
  pk_unique l -> row_of i l = Some m ->
  sql_select (fun m => id m =? i) l = [m].
Proof.
  unfold pk_unique, row_of.
  induction l as [|x l IH]; intros Hnd Hrow; [done |].
  rewrite fmap_cons in Hnd. apply NoDup_cons in Hnd as [Hx Hnd].
  unfold sql_select in *. simpl in *.
  destruct (Z.eqb_spec (id x) i) as [Heq|Hne].
  - injection Hrow as ->. f_equal.
    apply sql_select_absent. intros m' Hm' Hid.
    destruct Hx. rewrite Heq, <- Hid. by apply list_elem_of_fmap_2.
  - by apply IH.
Qed.

Lemma sql_update_fmap c f (l : ledger) :
  sql_update c f l = (fun m => if c m then f m else m) <$> l.
Proof. reflexivity. Qed.

Lemma ledger_step_sql_update c f (l : ledger) :
  (forall m, id (f m) = id m) ->
  (forall m, included_in_summary m = true ->
             included_in_summary (f m) = true) ->
  ledger_step l (sql_update c f l).
Proof.
  intros Hid Hflag. rewrite sql_update_fmap. apply step_update.
  - intros m. destruct (c m); [apply Hid | done].
  - intros m Hm. destruct (c m); [by apply Hflag | done].
Qed.

Lemma ledger_step_claimed i l l' :
  ledger_step l l' -> claimed i l -> claimed i l'.
Proof.
  intros Hstep (m & Hrow & Hflag). destruct Hstep as [g l Hid Hmono | r l Hr].
  - exists (g m). rewrite row_of_fmap, Hrow by done. split; [done | by apply Hmono].
  - exists m. split; [by apply row_of_app_old | done].
Qed.

Lemma ledger_step_pk_unique l l' :
  ledger_step l l' -> pk_unique l -> pk_unique l'.
Proof.
  unfold pk_unique. intros [g l0 Hid _ | r l0 Hr] Hnd.
  - rewrite <- list_fmap_compose.
    erewrite list_fmap_ext; [exact Hnd |].
    intros k m _. simpl. apply Hid.
  - rewrite fmap_app. apply NoDup_app. split; [done |].
    split; [| apply NoDup_singleton].
    intros j Hj Hj'. apply list_elem_of_singleton in Hj' as ->.
    apply list_elem_of_fmap in Hj as (m & Hm & Hin).
    apply next_id_fresh in Hin. simpl in Hm. lia.
Qed.

Lemma rtc_ledger_step_claimed i l l' :
  rtc ledger_step l l' -> claimed i l -> claimed i l'.
Proof.
  induction 1 as [|l l1 l2 Hstep _ IH]; [done |].
  intros Hc. apply IH. by eapply ledger_step_claimed.
Qed.

Lemma rtc_ledger_step_pk_unique l l' :
  rtc ledger_step l l' -> pk_unique l -> pk_unique l'.
Proof.
  induction 1 as [|l l1 l2 Hstep _ IH]; [done |].
  intros Hc. apply IH. by eapply ledger_step_pk_unique.
Qed.

Lemma ledger_step_claim sel now (l : ledger) : ledger_step l (claim sel now l).
Proof. by apply ledger_step_sql_update. Qed.

Lemma save_message_steps cfg hp e tid cid title type uid name text ts cu w :
  rtc ledger_step (db w)
    (db (exec (save_message cfg hp e tid cid title type uid name text ts cu) w)).
Proof.
  unfold exec. rewrite save_message_run. cbv zeta.
  set (row := intake_row hp e (next_id (db w)) tid cid title type uid name
                         text ts cu).
  assert (Hins : ledger_step (db w) (db w ++ [row])) by by apply step_insert.
  destruct (persist_ok e); [| apply rtc_refl].
  destruct (warning_threshold_score cfg <=? intake_score hp uid text cu);
    [| by apply rtc_once].
  destruct (bot_app e); [| by apply rtc_once].
  destruct (send_ok e && mark_ok e); [| by apply rtc_once].
  simpl. eapply rtc_l; [exact Hins |].
  apply rtc_once. by apply ledger_step_sql_update.
Qed.

Lemma handle_label_callback_steps e data w :
  rtc ledger_step (db w) (db (exec (handle_label_callback e data) w)).
Proof.
  unfold exec. rewrite handle_label_callback_run. simpl.
  unfold label_db.
  destruct (answer_ok e); [| apply rtc_refl].
  destruct (parse_callback data) as [| | |i lab]; try apply rtc_refl.
  destruct (sql_select _ (db w)) as [|m [|m' rows]]; try apply rtc_refl.
  destruct (session_ok e); [| apply rtc_refl].
  apply rtc_once. by apply ledger_step_sql_update.
Qed.

Lemma generate_and_send_summary_steps cfg e w :
  rtc ledger_step (db w) (db (exec (generate_and_send_summary cfg e) w)).
Proof.
  unfold exec. rewrite generate_and_send_summary_run. simpl.
  unfold summary_db.
  destruct (stats_ok e && negb (run_total cfg e (db w) =? 0) && select_ok e);
    [| apply rtc_refl].
  apply rtc_once, ledger_step_claim.
Qed.

Lemma run_op_steps cfg o w :
  rtc ledger_step (db w) (db (exec (run_op cfg o) w)).
Proof.
  destruct o as [hp e tid cid title type uid name text ts cu | e data | e | e];
    cbn [run_op].
  - apply save_message_steps.
  - apply handle_label_callback_steps.
  - unfold scheduled_summary_job, is_quiet_hours.
    apply generate_and_send_summary_steps.
  - unfold trigger_summary_now, exec, log, emit, mbind, M_bind.
    apply (generate_and_send_summary_steps cfg e
             (mkWorld (db w) (trace w ++ [Log INFO]))).
Qed.

Lemma exec_ops_steps cfg os w :
  rtc ledger_step (db w) (db (exec_ops cfg os w)).
Proof.
  unfold exec_ops. revert w.
  induction os as [|o os IH]; intros w; [apply rtc_refl |].
  simpl. etrans; [apply (run_op_steps cfg o) | apply IH].
Qed.

(** ** The selection query *)

Lemma precedes_spec m1 m2 :
  precedes m1 m2 <->
  priority_score m2 < priority_score m1
  \/ (priority_score m1 = priority_score m2 /\ timestamp m2 <= timestamp m1).
Proof.
  unfold precedes, order_by.
  rewrite orb_true_iff, andb_true_iff, Z.ltb_lt, Z.eqb_eq, Z.leb_le. done.
Qed.

#[global] Instance precedes_total : Total precedes.
Proof. intros m1 m2. rewrite !precedes_spec. lia. Qed.

#[global] Instance precedes_trans : Transitive precedes.
Proof. intros m1 m2 m3. rewrite !precedes_spec. lia. Qed.

Lemma selectable_spec cfg cutoff m :
  selectable cfg cutoff m = true <->
  cutoff <= timestamp m /\ label m = None /\ included_in_summary m = false
  /\ min_priority_score cfg <= priority_score m.
Proof.
  unfold selectable.
  rewrite !andb_true_iff, !Z.leb_le, negb_true_iff.
  destruct (label m); intuition congruence.
Qed.

Lemma sql_select_elem c (l : ledger) m :
  m ∈ sql_select c l <-> m ∈ l /\ c m = true.
Proof.
  unfold sql_select. rewrite !list_elem_of_In. apply filter_In.
Qed.

Lemma sql_select_NoDup c (l : ledger) : NoDup l -> NoDup (sql_select c l).
Proof.
  rewrite !NoDup_ListNoDup. apply List.NoDup_filter.
Qed.

Lemma ranking_Permutation cfg cutoff (l : ledger) :
  merge_sort precedes (sql_select (selectable cfg cutoff) l)
  ≡ₚ sql_select (selectable cfg cutoff) l.
Proof. apply merge_sort_Permutation. Qed.

Lemma selection_elem cfg cutoff limit (l : ledger) m :
  m ∈ selection cfg cutoff limit l ->
  m ∈ l /\ selectable cfg cutoff m = true.
Proof.
  unfold selection. intros Hin.
  apply subseteq_take in Hin.
  rewrite ranking_Permutation in Hin. by apply sql_select_elem.
Qed.

Lemma pk_unique_NoDup (l : ledger) : pk_unique l -> NoDup l.
Proof. apply NoDup_fmap_1. Qed.

Lemma selection_sorted cfg cutoff limit (l : ledger) :
  StronglySorted precedes (selection cfg cutoff limit l).
Proof.
  unfold selection.
  eapply StronglySorted_app_1_l. rewrite take_drop.
  apply StronglySorted_merge_sort; apply _.
Qed.

Lemma selection_NoDup cfg cutoff limit (l : ledger) :
  NoDup l -> NoDup (selection cfg cutoff limit l).
Proof.
  intros Hnd. unfold selection.
  eapply sublist_NoDup; [| apply sublist_take].
  rewrite ranking_Permutation. by apply sql_select_NoDup.
Qed.

Lemma selection_length cfg cutoff limit (l : ledger) :
  length (selection cfg cutoff limit l)
  = Nat.min limit (length (sql_select (selectable cfg cutoff) l)).
Proof.
  unfold selection. rewrite length_take. f_equal.
  apply Permutation_length, ranking_Permutation.
Qed.

(** A qualifying row that is left out ranks after every selected row. *)
Lemma selection_top cfg cutoff limit (l : ledger) m m' :
  m ∈ l -> selectable cfg cutoff m = true ->
  m ∉ selection cfg cutoff limit l ->
  m' ∈ selection cfg cutoff limit l ->
  precedes m' m.
Proof.
  unfold selection. intros Hin Hsel Hout Hin'.
  set (ranking := merge_sort precedes (sql_select (selectable cfg cutoff) l)) in *.
  assert (Hm : m ∈ ranking).
  { unfold ranking. rewrite ranking_Permutation. by apply sql_select_elem. }
  rewrite <- (take_drop limit ranking) in Hm.
  apply elem_of_app in Hm as [Hm | Hm]; [done |].
  eapply (StronglySorted_app_1_elem_of precedes (take limit ranking)
            (drop limit ranking)); [| done | done].
  rewrite take_drop. apply StronglySorted_merge_sort; apply _.
Qed.

(** The cap is the only reason to leave a qualifying row out. *)
Lemma selection_full cfg cutoff limit (l : ledger) m :
  m ∈ l -> selectable cfg cutoff m = true ->
  m ∉ selection cfg cutoff limit l ->
  length (selection cfg cutoff limit l) = limit.
Proof.
  unfold selection. intros Hin Hsel Hout.
  set (ranking := merge_sort precedes (sql_select (selectable cfg cutoff) l)) in *.
  assert (Hm : m ∈ ranking).
  { unfold ranking. rewrite ranking_Permutation. by apply sql_select_elem. }
  destruct (decide (length ranking ≤ limit)%nat) as [Hle|Hgt].
  - rewrite take_ge in Hout by done. done.
  - rewrite length_take. lia.
Qed.

Lemma StronglySorted_weaken {A} (R R' : relation A) (l : list A) :
  (forall x y, R x y -> R' x y) -> StronglySorted R l -> StronglySorted R' l.
Proof.
  intros HR. induction 1 as [|x l _ IH Hx]; constructor; [done |].
  eapply Forall_impl; [exact Hx | apply HR].
Qed.

Lemma selected_by_id (l sel : list Message) m :
  pk_unique l -> sel ⊆ l -> m ∈ l ->
  id m ∈ id <$> sel <-> m ∈ sel.
Proof.
  intros Hpk Hsub Hin. split.
  - intros (m' & Hid & Hm')%list_elem_of_fmap.
    assert (Some m = Some m') as [= ->]; [| done].
    rewrite <- (row_of_unique l m Hpk Hin), Hid.
    apply row_of_unique; [done | by apply Hsub].
  - apply list_elem_of_fmap_2.
Qed.

(** The claim rewrites the selected rows and keeps the others. *)
Lemma claim_rows (l sel : list Message) now :
  pk_unique l -> sel ⊆ l ->
  Forall2 (fun m m' => (m ∈ sel -> m' = set_summary now m)
                       /\ (m ∉ sel -> m' = m))
          l (claim sel now l).
Proof.
  intros Hpk Hsub. unfold claim. rewrite sql_update_fmap.
  apply Forall2_fmap_r, Forall_Forall2_diag, Forall_forall.
  intros m Hin. pose proof (selected_by_id l sel m Hpk Hsub Hin) as Hid.
  cbn [compose]. cbn beta. case_bool_decide as Hd.
  - split; [done | intros Hout; by apply Hid in Hd].
  - split; [intros Hsel; by apply Hid in Hsel | done].
Qed.

(** C2. When the selection session commits, [get_unlabeled_messages]
    picks rows of the table that all have a capture timestamp at or after
    now − H hours (H · 3 600 000 000 microseconds), a null label, the
    digest flag unset and a score at or above the configured minimum; no
    row twice; ordered by score descending and, on equal scores, by
    capture timestamp descending; at most N of them, and fewer than N only
    when no qualifying row is left out; every qualifying row that is left
    out ranks after all picked ones. It marks exactly the picked rows:
    the table afterwards has each of them with the digest flag set to true
    and the claim timestamp set to the clock reading of the update, every
    other column as it was, and every other row as it was. The rows come
    back in the order of the pick and as marked, and the call emits no
    event. *)
Theorem get_unlabeled_messages_selects cfg e hours limit w :
  pk_unique (db w) ->
  select_ok e = true ->
  let cutoff := select_now e - hours * 3600000000 in
  let qualifies m :=
    cutoff <= timestamp m /\ label m = None
    /\ included_in_summary m = false
    /\ min_priority_score cfg <= priority_score m in
  let ranked m1 m2 :=
    priority_score m2 < priority_score m1
    \/ (priority_score m1 = priority_score m2
        /\ timestamp m2 <= timestamp m1) in
  let marked m :=
    {| id := id m; telegram_message_id := telegram_message_id m;
       chat_id := chat_id m; chat_title := chat_title m;
       chat_type := chat_type m; user_id := user_id m;
       user_name := user_name m; message_text := message_text m;
       timestamp := timestamp m; has_mention := has_mention m;
       is_question := is_question m; message_length := message_length m;
       priority_score := priority_score m;
       topic_summary := topic_summary m;
       label := label m; labeled_at := labeled_at m;
       included_in_summary := true;
       summary_sent_at := Some (claim_now e);
       warning_sent := warning_sent m;
       warning_sent_at := warning_sent_at m |} in
  exists picked sel w',
    get_unlabeled_messages cfg e hours limit w = (Ok sel, w')
    /\ (forall m, m ∈ picked -> m ∈ db w /\ qualifies m)
    /\ NoDup picked
    /\ StronglySorted ranked picked
    /\ (length picked <= limit)%nat
    /\ (forall m, m ∈ db w -> qualifies m -> m ∉ picked ->
                  length picked = limit
                  /\ forall m', m' ∈ picked -> ranked m' m)
    /\ sel = marked <$> picked
    /\ StronglySorted ranked sel
    /\ (length sel <= limit)%nat
    /\ Forall2 (fun m m' =>
                  (m ∈ picked -> m' = marked m)
                  /\ (m ∉ picked -> m' = m))
               (db w) (db w')
    /\ trace w' = trace w.
Proof.
  intros Hpk Hok cutoff qualifies ranked marked.
  pose proof (get_unlabeled_messages_run cfg e hours limit w) as Hrun.
  cbv zeta in Hrun. rewrite Hok in Hrun.
  change (hours_delta hours) with (hours * 3600000000) in Hrun.
  fold cutoff in Hrun.
  change (set_summary (claim_now e)) with marked in Hrun.
  set (picked := selection cfg cutoff limit (db w)) in *.
  assert (Hq : forall m, selectable cfg cutoff m = true <-> qualifies m)
    by (intros m; apply selectable_spec).
  assert (Hsub : picked ⊆ db w)
    by (intros m Hm; by apply (selection_elem cfg cutoff limit)).
  assert (Hsorted : StronglySorted ranked picked).
  { eapply StronglySorted_weaken; [| apply selection_sorted].
    intros x y. by rewrite precedes_spec. }
  assert (Hlen : (length picked <= limit)%nat)
    by (unfold picked; rewrite selection_length; lia).
  exists picked, (marked <$> picked),
    (mkWorld (claim picked (claim_now e) (db w)) (trace w)).
  split; [exact Hrun |].
  split.
  { intros m Hm. apply selection_elem in Hm as [Hin Hs]. by rewrite <- Hq. }
  split. { by apply selection_NoDup, pk_unique_NoDup. }
  split; [exact Hsorted |].
  split; [exact Hlen |].
  split.
  { intros m Hin Hm Hout. apply Hq in Hm. split.
    - by eapply selection_full.
    - intros m' Hm'. apply precedes_spec. by eapply selection_top. }
  split; [reflexivity |].
  split. { by apply (StronglySorted_fmap marked ranked ranked). }
  split. { by rewrite length_fmap. }
  split; [| done].
  by apply (claim_rows (db w) picked (claim_now e)).
Qed.

Lemma get_unlabeled_messages_selects_witness :
  pk_unique (db (mkWorld scenario_B []))
  /\ select_ok scenario_summary_env = true
  /\ exists picked sel w',
       get_unlabeled_messages scenario_cfg scenario_summary_env 4 10
                              (mkWorld scenario_B []) = (Ok sel, w')
       /\ (length picked <= 10)%nat
       /\ sel = set_summary (claim_now scenario_summary_env) <$> picked.
Proof.
  assert (Hpk : pk_unique (db (mkWorld scenario_B [])))
    by (apply (bool_decide_unpack _); vm_compute; exact I).
  split; [exact Hpk |]. split; [reflexivity |].
  destruct (get_unlabeled_messages_selects scenario_cfg scenario_summary_env
              4 10 (mkWorld scenario_B []) Hpk eq_refl)
    as (picked & sel & w' & Hrun & _ & _ & _ & Hlen & _ & Hsel & _).
  exists picked, sel, w'.
  split; [exact Hrun |]. split; [exact Hlen | exact Hsel].
Defined.

(** Scenario B of the specification: of twelve captures in the window,
    the three with score 0 are left out; the nine others come back by
    score descending and capture time descending, and exactly they are
    claimed; the raw counts are 12 messages in 4 chats. *)
Example scenario_B_selection :
  let w' := exec (generate_and_send_summary scenario_cfg scenario_summary_env)
                 (mkWorld scenario_B []) in
  emitted (generate_and_send_summary scenario_cfg scenario_summary_env)
          (mkWorld scenario_B [])
  = [Log INFO;
     SendSummary (run_selection scenario_cfg scenario_summary_env scenario_B)
                 12 4 4;
     Log INFO]
  /\ id <$> run_selection scenario_cfg scenario_summary_env scenario_B
     = [7; 12; 8; 3; 11; 4; 1; 9; 5]
  /\ id <$> List.filter included_in_summary (db w')
     = [1; 3; 4; 5; 7; 8; 9; 11; 12].
Proof. vm_compute. done. Qed.

(** ** Permanence of the claim *)

(** Every row with the id of a returned row is claimed after the update
    of the selector. *)
Lemma claim_claims (l sel : list Message) now m :
  m ∈ sel -> m ∈ l -> claimed (id m) (claim sel now l).
Proof.
  intros Hsel Hin. unfold claimed, claim.
  rewrite row_of_sql_update by done.
  destruct (row_of_exists (id m) l m Hin eq_refl) as [m' Hrow].
  rewrite Hrow. simpl.
  apply row_of_Some in Hrow as [_ Hid].
  rewrite bool_decide_true by (rewrite Hid; by apply list_elem_of_fmap_2).
  by eexists.
Qed.

(** A returned row is a picked row, with the marks of the update. *)
Lemma marked_elem now (sel : list Message) m :
  m ∈ set_summary now <$> sel ->
  exists m0, m0 ∈ sel /\ m = set_summary now m0.
Proof.
  intros Hm. apply list_elem_of_fmap in Hm as (m0 & -> & Hm0). by exists m0.
Qed.

(** Every row that a run gets from the selector is claimed in the table
    that the selector leaves. *)
Lemma run_selection_claimed cfg e (l : ledger) m :
  m ∈ run_selection cfg e l ->
  claimed (id m) (claim (run_selection cfg e l) (claim_now e) l).
Proof.
  unfold run_selection. intros Hm. rewrite claim_marked.
  apply marked_elem in Hm as (m0 & Hm0 & ->).
  change (id (set_summary (claim_now e) m0)) with (id m0).
  apply claim_claims; [exact Hm0 |].
  unfold run_picked in Hm0. by apply selection_elem in Hm0 as [Hin _].
Qed.

(** A claimed row is not selected. *)
Lemma claimed_not_selected cfg cutoff limit (l : ledger) i m :
  pk_unique l -> claimed i l ->
  m ∈ selection cfg cutoff limit l -> id m <> i.
Proof.
  intros Hpk (m0 & Hrow & Hflag) Hm Hid.
  apply selection_elem in Hm as [Hin Hsel].
  apply selectable_spec in Hsel as (_ & _ & Hfree & _).
  rewrite <- Hid, (row_of_unique l m Hpk Hin) in Hrow.
  injection Hrow as ->. congruence.
Qed.

(** A row that is claimed stays out of every later selection, whatever
    operations run in between. *)
Lemma claimed_never_selected cfg os e hours limit w i sel w' :
  pk_unique (db w) -> claimed i (db w) ->
  get_unlabeled_messages cfg e hours limit (exec_ops cfg os w) = (Ok sel, w') ->
  forall m, m ∈ sel -> id m <> i.
Proof.
  intros Hpk Hc Hrun m Hm.
  pose proof (exec_ops_steps cfg os w) as Hsteps.
  rewrite get_unlabeled_messages_run in Hrun. cbv zeta in Hrun.
  destruct (select_ok e); [| discriminate].
  injection Hrun as <- _.
  apply marked_elem in Hm as (m0 & Hm0 & ->).
  change (id (set_summary (claim_now e) m0)) with (id m0).
  eapply claimed_not_selected; [| | exact Hm0].
  - by eapply rtc_ledger_step_pk_unique.
  - by eapply rtc_ledger_step_claimed.
Qed.

(** C3. No operation on the ledger clears the digest flag of a row; and a
    row returned by one run of the selector is returned by no later run,
    whatever the operations in between and whatever the lookback windows
    and caps of the two runs. *)
Theorem claim_is_permanent cfg :
  (forall o w i,
     claimed i (db w) -> claimed i (db (exec (run_op cfg o) w)))
  /\ (forall w e1 h1 n1 sel1 w1 os e2 h2 n2 sel2 w2,
        pk_unique (db w) ->
        get_unlabeled_messages cfg e1 h1 n1 w = (Ok sel1, w1) ->
        get_unlabeled_messages cfg e2 h2 n2 (exec_ops cfg os w1)
          = (Ok sel2, w2) ->
        forall m1 m2, m1 ∈ sel1 -> m2 ∈ sel2 -> id m1 <> id m2).
Proof.
  split.
  - intros o w i Hc. eapply rtc_ledger_step_claimed; [| exact Hc].
    apply run_op_steps.
  - intros w e1 h1 n1 sel1 w1 os e2 h2 n2 sel2 w2 Hpk Hrun1 Hrun2 m1 m2 Hm1 Hm2.
    rewrite get_unlabeled_messages_run in Hrun1. cbv zeta in Hrun1.
    destruct (select_ok e1); [| discriminate].
    injection Hrun1 as <- <-.
    intros Heq. symmetry in Heq. revert Heq.
    eapply (claimed_never_selected cfg os e2 h2 n2 _ (id m1) sel2 w2);
      [| | exact Hrun2 | exact Hm2].
    + eapply ledger_step_pk_unique; [apply ledger_step_claim | exact Hpk].
    + apply marked_elem in Hm1 as (m0 & Hm0 & ->).
      change (id (set_summary (claim_now e1) m0)) with (id m0).
      apply claim_claims; [exact Hm0 |].
      by apply selection_elem in Hm0 as [Hin _].
Qed.

Lemma claim_is_permanent_witness :
  pk_unique (db (mkWorld scenario_B []))
  /\ forall m2,
       m2 ∈ selection scenario_cfg (at_time 16 0) 10
              (claim (selection scenario_cfg (at_time 16 0) 2 scenario_B)
                     (at_time 20 1) scenario_B) ->
       id (scenario_row 7 50 (at_time 18 20) 8) <> id m2.
Proof.
  assert (Hpk : pk_unique (db (mkWorld scenario_B [])))
    by (apply (bool_decide_unpack _); vm_compute; exact I).
  split; [exact Hpk |].
  intros m2 Hm2.
  refine (proj2 (claim_is_permanent scenario_cfg)
            (mkWorld scenario_B []) scenario_summary_env 4 2%nat
            (set_summary (at_time 20 1)
               <$> selection scenario_cfg (at_time 16 0) 2 scenario_B)
            (mkWorld (claim (selection scenario_cfg (at_time 16 0) 2 scenario_B)
                            (at_time 20 1) scenario_B) [])
            [] scenario_summary_env 4 10%nat
            (set_summary (at_time 20 1)
               <$> selection scenario_cfg (at_time 16 0) 10
                     (claim (selection scenario_cfg (at_time 16 0) 2 scenario_B)
                            (at_time 20 1) scenario_B))
            _ Hpk eq_refl eq_refl
            (set_summary (at_time 20 1) (scenario_row 7 50 (at_time 18 20) 8))
            (set_summary (at_time 20 1) m2) _ _).
  - vm_compute. apply list_elem_of_here.
  - by apply list_elem_of_fmap_2.
Defined.

(** Two overlapping runs on scenario B with cap 2: the second run returns
    the next two rows, not the two of the first run. *)
Example overlapping_runs :
  let w1 := exec (get_unlabeled_messages scenario_cfg scenario_summary_env 4 2)
                 (mkWorld scenario_B []) in
  id <$> selection scenario_cfg (at_time 16 0) 2 scenario_B = [7; 12]
  /\ id <$> selection scenario_cfg (at_time 16 0) 2 (db w1) = [8; 3].
Proof. vm_compute. done. Qed.

(** ** The signals of a summary run *)

Lemma generate_and_send_summary_emitted cfg e w :
  emitted (generate_and_send_summary cfg e) w = summary_events cfg e (db w).
Proof.
  apply emitted_app. unfold exec. by rewrite generate_and_send_summary_run.
Qed.

Lemma generate_and_send_summary_db cfg e w :
  db (exec (generate_and_send_summary cfg e) w) = summary_db cfg e (db w).
Proof. unfold exec. by rewrite generate_and_send_summary_run. Qed.

(** C6. In a run whose statistics query succeeds: when no row lies in the
    lookback window, [send_simple_message] receives the quiet text, the
    table is left as it was, and neither a digest nor the all-clear text is
    handed over; when the window is not empty and the selection comes back
    empty, [send_simple_message] receives the all-clear text with the raw
    total, and no digest and no quiet text is handed over. *)
Theorem summary_signals cfg e w :
  stats_ok e = true ->
  let run := generate_and_send_summary cfg e in
  let hours := summary_interval_hours cfg in
  let total :=
    Z.of_nat (length (sql_select
      (fun m => stats_now e - hours_delta hours <=? timestamp m) (db w))) in
  (total = 0 ->
     SendSimpleMessage (Quiet hours) ∈ emitted run w
     /\ db (exec run w) = db w
     /\ (forall ms t c h, SendSummary ms t c h ∉ emitted run w)
     /\ (forall h t, SendSimpleMessage (AllClear h t) ∉ emitted run w))
  /\ (total <> 0 ->
      select_ok e = true ->
      selection cfg (select_now e - hours_delta hours)
                (max_messages_per_summary cfg) (db w) = [] ->
      SendSimpleMessage (AllClear hours total) ∈ emitted run w
      /\ db (exec run w) = db w
      /\ (forall ms t c h, SendSummary ms t c h ∉ emitted run w)
      /\ (forall h, SendSimpleMessage (Quiet h) ∉ emitted run w)).
Proof.
  intros Hstats run hours total. unfold run.
  rewrite generate_and_send_summary_emitted, generate_and_send_summary_db.
  unfold summary_events, summary_db, report_failure.
  fold hours. change (run_total cfg e (db w)) with total.
  rewrite Hstats. cbn [andb]. split.
  - intros ->. cbn [Z.eqb negb andb].
    split; [set_solver |]. split; [done |].
    destruct (bot_up e && negb (deliver_ok e)); split; intros; absent.
  - intros Hne Hsel Hempty. apply Z.eqb_neq in Hne. rewrite Hne, Hsel.
    assert (Hnone : run_selection cfg e (db w) = [])
      by exact (f_equal (fmap (set_summary (claim_now e))) Hempty).
    rewrite Hnone. cbn [negb andb].
    split; [set_solver |]. split; [apply claim_nil |].
    destruct (bot_up e && negb (deliver_ok e)); split; intros; absent.
Qed.

Lemma summary_signals_witness :
  stats_ok scenario_summary_env = true
  /\ SendSimpleMessage (Quiet 4)
     ∈ emitted (generate_and_send_summary scenario_cfg scenario_summary_env)
               (mkWorld [] []).
Proof.
  split; [reflexivity |].
  exact (proj1 (proj1 (summary_signals scenario_cfg scenario_summary_env
                         (mkWorld [] []) eq_refl) eq_refl)).
Defined.

(** Scenario C of the specification: nothing captured in the window. *)
Example scenario_C_quiet :
  generate_and_send_summary scenario_cfg scenario_summary_env (mkWorld [] [])
  = (Ok tt, mkWorld [] [Log INFO; Log INFO; SendSimpleMessage (Quiet 4)]).
Proof. reflexivity. Qed.

(** Scenario D of the specification: five captures, all labeled or
    claimed before. *)
Example scenario_D_all_clear :
  generate_and_send_summary scenario_cfg scenario_summary_env
                            (mkWorld scenario_D [])
  = (Ok tt, mkWorld scenario_D
              [Log INFO; Log INFO; SendSimpleMessage (AllClear 4 5)]).
Proof. vm_compute. reflexivity. Qed.

(** ** Failure of the delivery *)

(** C7. In a run that has selected and claimed rows and whose digest
    delivery then fails, the function still returns without raising, the
    failure is logged at error level after the digest was handed over,
    every selected row is claimed in the table that the run leaves, and
    no later run of the selector returns any of them, whatever operations
    run in between. *)
Theorem delivery_failure_keeps_claim cfg e w :
  pk_unique (db w) ->
  stats_ok e = true ->
  select_ok e = true ->
  run_total cfg e (db w) <> 0 ->
  run_selection cfg e (db w) <> [] ->
  bot_up e && deliver_ok e = false ->
  let run := generate_and_send_summary cfg e in
  let sel := run_selection cfg e (db w) in
  run w = (Ok tt, exec run w)
  /\ emitted run w
     = [Log INFO;
        SendSummary sel (run_total cfg e (db w)) (run_chats cfg e (db w))
                    (summary_interval_hours cfg);
        Log ERROR; SendSimpleMessage ErrorReport]
  /\ (forall m, m ∈ sel -> claimed (id m) (db (exec run w)))
  /\ (forall os e2 h2 n2 sel2 w2,
        get_unlabeled_messages cfg e2 h2 n2 (exec_ops cfg os (exec run w))
          = (Ok sel2, w2) ->
        forall m m2, m ∈ sel -> m2 ∈ sel2 -> id m <> id m2).
Proof.
  intros Hpk Hstats Hselect Htotal Hsel Hfail run sel.
  apply Z.eqb_neq in Htotal.
  assert (Hdb : db (exec run w) = claim sel (claim_now e) (db w)).
  { unfold run. rewrite generate_and_send_summary_db. unfold summary_db.
    by rewrite Hstats, Htotal, Hselect. }
  assert (Hclaimed : forall m, m ∈ sel -> claimed (id m) (db (exec run w))).
  { intros m Hm. rewrite Hdb. by apply run_selection_claimed. }
  split. { unfold run, exec. by rewrite generate_and_send_summary_run. }
  split.
  { unfold run. rewrite generate_and_send_summary_emitted.
    unfold summary_events, report_failure.
    rewrite Hstats, Htotal, Hselect, Hfail. unfold sel.
    destruct (run_selection cfg e (db w)); [by destruct Hsel | done]. }
  split; [exact Hclaimed |].
  intros os e2 h2 n2 sel2 w2 Hrun2 m m2 Hm Hm2 Heq.
  symmetry in Heq. revert Heq.
  eapply (claimed_never_selected cfg os e2 h2 n2 (exec run w));
    [| by apply Hclaimed | exact Hrun2 | exact Hm2].
  rewrite Hdb. eapply ledger_step_pk_unique; [apply ledger_step_claim | done].
Qed.

Lemma delivery_failure_keeps_claim_witness :
  pk_unique (db (mkWorld scenario_B []))
  /\ run_total scenario_cfg failing_delivery_env scenario_B <> 0
  /\ run_selection scenario_cfg failing_delivery_env scenario_B <> []
  /\ generate_and_send_summary scenario_cfg failing_delivery_env
       (mkWorld scenario_B [])
     = (Ok tt, exec (generate_and_send_summary scenario_cfg failing_delivery_env)
                    (mkWorld scenario_B [])).
Proof.
  assert (Hpk : pk_unique (db (mkWorld scenario_B [])))
    by (apply (bool_decide_unpack _); vm_compute; exact I).
  assert (Htotal : run_total scenario_cfg failing_delivery_env
                     (db (mkWorld scenario_B [])) <> 0)
    by (vm_compute; discriminate).
  assert (Hsel : run_selection scenario_cfg failing_delivery_env
                   (db (mkWorld scenario_B [])) <> [])
    by (vm_compute; discriminate).
  split; [exact Hpk |]. split; [exact Htotal |]. split; [exact Hsel |].
  exact (proj1 (delivery_failure_keeps_claim scenario_cfg failing_delivery_env
                  (mkWorld scenario_B []) Hpk eq_refl eq_refl Htotal Hsel
                  eq_refl)).
Defined.

(** A failed delivery on scenario B, then the next cycle: the nine rows
    stay claimed and the next digest is the all-clear text. *)
Example failed_delivery_then_next_cycle :
  let w1 := exec (generate_and_send_summary scenario_cfg failing_delivery_env)
                 (mkWorld scenario_B []) in
  id <$> List.filter included_in_summary (db w1)
  = [1; 3; 4; 5; 7; 8; 9; 11; 12]
  /\ emitted (generate_and_send_summary scenario_cfg later_summary_env) w1
     = [Log INFO; Log INFO; SendSimpleMessage (AllClear 4 8)].
Proof. vm_compute. done. Qed.

(** ** Relabeling *)

(** A callback that the parser rejects, or that names no stored row,
    leaves the table as it was. *)
Lemma handle_label_callback_rejected e data w :
  match parse_callback data with
  | Request i _ => row_of i (db w) = None
  | _ => True
  end ->
  db (exec (handle_label_callback e data) w) = db w.
Proof.
  intros Hrej. unfold exec. rewrite handle_label_callback_run. simpl.
  unfold label_db. destruct (answer_ok e); [| done].
  destruct (parse_callback data) as [| | |i lab]; try done.
  rewrite sql_select_absent; [done |].
  intros m Hin Hid.
  destruct (row_of_exists i (db w) m Hin Hid) as [m' Hm']. congruence.
Qed.

(** Scenario E of the specification: a callback for an id that is not
    stored reports not-found and changes no row. *)
Example scenario_E_not_found :
  handle_label_callback scenario_label_env "label:99:high"
                        (mkWorld scenario_D [])
  = (Ok tt, mkWorld scenario_D [QueryAnswer; EditMessageText NotFound]).
Proof. vm_compute. reflexivity. Qed.

(** The callback data of the three buttons parse back to the request. *)
Example parse_callback_button :
  parse_callback (callback_data "17" "medium") = Request 17 "medium".
Proof. reflexivity. Qed.

(** C1, as the code has it. An acknowledged, committed callback with one of
    the three labels for a stored row sets the label of that row to the
    requested label and its labeled-at time to the time of the callback,
    whether or not the row had a label before (the last label wins); the
    other attributes of the row and all other rows are kept, and the
    confirmation that is written back names the requested label. *)
Theorem handle_label_callback_overwrites e data w i lab m :
  pk_unique (db w) ->
  answer_ok e = true ->
  session_ok e = true ->
  parse_callback data = Request i lab ->
  row_of i (db w) = Some m ->
  let run := handle_label_callback e data in
  row_of i (db (exec run w)) = Some (set_label lab (label_now e) m)
  /\ (forall j, j <> i -> row_of j (db (exec run w)) = row_of j (db w))
  /\ EditMessageText (Confirmation lab) ∈ emitted run w.
Proof.
  intros Hpk Hans Hses Hparse Hrow run.
  pose proof (handle_label_callback_run e data w) as Hrun.
  unfold label_db, label_events in Hrun.
  rewrite Hans, Hparse, (sql_select_unique i (db w) m Hpk Hrow), Hses in Hrun.
  assert (Hdb : db (exec run w)
                = sql_update (fun m => id m =? i)
                             (set_label lab (label_now e)) (db w))
    by (unfold run, exec; by rewrite Hrun).
  rewrite Hdb. split; [| split].
  - rewrite row_of_sql_update, Hrow by done. simpl.
    apply row_of_Some in Hrow as [_ ->]. by rewrite Z.eqb_refl.
  - intros j Hj. rewrite row_of_sql_update by done.
    destruct (row_of j (db w)) as [m'|] eqn:Hj'; [| done]. simpl.
    apply row_of_Some in Hj' as [_ Hid].
    destruct (Z.eqb_spec (id m') i); [congruence | done].
  - rewrite (emitted_app run w _ (f_equal (fun r => trace (snd r)) Hrun)).
    set_solver.
Qed.

Lemma handle_label_callback_overwrites_witness :
  pk_unique (db (mkWorld scenario_D []))
  /\ row_of 1 (db (exec (handle_label_callback scenario_label_env "label:1:low")
                        (mkWorld scenario_D [])))
     = Some (set_label "low" (at_time 21 0)
               (set_label "high" (at_time 18 0)
                  (scenario_row 1 50 (at_time 17 0) 3))).
Proof.
  assert (Hpk : pk_unique (db (mkWorld scenario_D [])))
    by (apply (bool_decide_unpack _); vm_compute; exact I).
  split; [exact Hpk |].
  exact (proj1 (handle_label_callback_overwrites scenario_label_env
                  "label:1:low" (mkWorld scenario_D []) 1 "low"
                  (set_label "high" (at_time 18 0)
                     (scenario_row 1 50 (at_time 17 0) 3))
                  Hpk eq_refl eq_refl eq_refl eq_refl)).
Defined.

(** C1, as stated, fails: row 1 of scenario D carries the label [high]
    set at 18:00; the callback [label:1:low] at 21:00 replaces the label by
    [low] and the labeled-at time by 21:00, and the confirmation reports
    [low], not the label that was stored. *)
Lemma relabel_overwrites_label :
  let w := mkWorld scenario_D [] in
  let w' := exec (handle_label_callback scenario_label_env "label:1:low") w in
  (label <$> row_of 1 (db w)) = Some (Some "high")
  /\ (labeled_at <$> row_of 1 (db w)) = Some (Some (at_time 18 0))
  /\ (label <$> row_of 1 (db w')) = Some (Some "low")
  /\ (labeled_at <$> row_of 1 (db w')) = Some (Some (at_time 21 0))
  /\ (label <$> row_of 1 (db w')) <> (label <$> row_of 1 (db w))
  /\ (labeled_at <$> row_of 1 (db w')) <> (labeled_at <$> row_of 1 (db w))
  /\ emitted (handle_label_callback scenario_label_env "label:1:low") w
     = [QueryAnswer; EditMessageText (Confirmation "low"); Log INFO].
Proof. vm_compute. repeat split; congruence. Qed.

(** * Further properties of the sources *)

(** ** Decimal renderings and [int] *)

Lemma digits_of_uint_acc (u : Decimal.uint) (p : positive) :
  digits (Z.pos p) true (DecimalString.NilEmpty.string_of_uint u) = Some (Z.pos (Pos.of_uint_acc u p)).
Proof.
  revert p. induction u as [|u IH|u IH|u IH|u IH|u IH|u IH|u IH|u IH|u IH|u IH];
    intros p; [reflexivity | ..];
    cbn [DecimalString.NilEmpty.string_of_uint digits Pos.of_uint_acc];
    match goal with
    | |- context [is_digit ?c] =>
        change (is_digit c) with true; cbn iota;
        let v := eval vm_compute in (digit_value c) in
        change (digit_value c) with v
    end;
    rewrite <- IH; f_equal; lia.
Qed.

Lemma digits_of_uint (u : Decimal.uint) :
  digits 0 true (DecimalString.NilEmpty.string_of_uint u) = Some (Z.of_N (Pos.of_uint u)).
Proof.
  induction u as [|u IH|u IH|u IH|u IH|u IH|u IH|u IH|u IH|u IH|u IH];
    [reflexivity | exact IH | ..];
    cbn [DecimalString.NilEmpty.string_of_uint digits Pos.of_uint];
    match goal with
    | |- context [is_digit ?c] =>
        change (is_digit c) with true; cbn iota;
        let v := eval vm_compute in (digit_value c) in
        change (digit_value c) with v
    end;
    cbn [Z.mul Z.add]; apply digits_of_uint_acc.
Qed.

Lemma digits_start (u : Decimal.uint) :
  u <> Decimal.Nil ->
  digits 0 false (DecimalString.NilEmpty.string_of_uint u) = digits 0 true (DecimalString.NilEmpty.string_of_uint u).
Proof. destruct u; [done | reflexivity ..]. Qed.

Lemma rstrip_digits (u : Decimal.uint) :
  rstrip is_int_space (DecimalString.NilEmpty.string_of_uint u) = DecimalString.NilEmpty.string_of_uint u.
Proof.
  induction u as [|u IH|u IH|u IH|u IH|u IH|u IH|u IH|u IH|u IH|u IH];
    [reflexivity | ..];
    cbn [DecimalString.NilEmpty.string_of_uint rstrip]; rewrite IH;
    by destruct (DecimalString.NilEmpty.string_of_uint u).
Qed.

Lemma digits_text_head (u : Decimal.uint) :
  u <> Decimal.Nil ->
  exists c r, DecimalString.NilEmpty.string_of_uint u = String c r /\ is_digit c = true.
Proof.
  destruct u; [done | ..]; intros _; eexists _, _; split; reflexivity.
Qed.

Lemma int_digits_text (u : Decimal.uint) :
  u <> Decimal.Nil -> int (DecimalString.NilEmpty.string_of_uint u) = Some (Z.of_N (Pos.of_uint u)).
Proof.
  intros Hu. unfold int.
  destruct (digits_text_head u Hu) as (c & r & Hs & Hc).
  assert (Hl : lstrip is_int_space (DecimalString.NilEmpty.string_of_uint u) = DecimalString.NilEmpty.string_of_uint u).
  { rewrite Hs. cbn [lstrip].
    destruct c as [[] [] [] [] [] [] [] []]; try discriminate Hc; reflexivity. }
  rewrite Hl, rstrip_digits.
  rewrite <- digits_of_uint, <- digits_start by done.
  rewrite Hs.
  destruct c as [[] [] [] [] [] [] [] []]; try discriminate Hc; reflexivity.
Qed.

(** [int(str(n)) == n] for every integer. *)
Lemma int_str_of_int (n : Z) : int (str_of_int n) = Some n.
Proof.
  unfold str_of_int. destruct n as [|p|p]; [reflexivity | ..].
  - cbn [Z.to_int DecimalString.NilZero.string_of_int].
    pose proof (DecimalPos.Unsigned.to_uint_nonnil p) as Hnil.
    unfold DecimalString.NilZero.string_of_uint.
    destruct (Pos.to_uint p) eqn:Hu; [done | ..]; rewrite <- Hu;
      rewrite int_digits_text by (rewrite Hu; done);
      by rewrite DecimalPos.Unsigned.of_to.
  - cbn [Z.to_int DecimalString.NilZero.string_of_int].
    pose proof (DecimalPos.Unsigned.to_uint_nonnil p) as Hnil.
    assert (Hs : DecimalString.NilZero.string_of_uint (Pos.to_uint p)
                 = DecimalString.NilEmpty.string_of_uint (Pos.to_uint p))
      by (unfold DecimalString.NilZero.string_of_uint;
          by destruct (Pos.to_uint p)).
    rewrite Hs. unfold int. cbn [lstrip].
    change (is_int_space "-") with false. cbn iota.
    cbn [rstrip]. rewrite rstrip_digits.
    destruct (digits_text_head _ Hnil) as (c & r & Hd & Hc).
    rewrite Hd. rewrite <- Hd.
    rewrite digits_start, digits_of_uint by done.
    by rewrite DecimalPos.Unsigned.of_to.
Qed.

(** ** Ids in callback data and in the bot token *)

Lemma split_free (sep : ascii) (s : string) :
  free_of sep s = true -> split sep s = [s].
Proof.
  induction s as [|c r IH]; [done |].
  cbn [free_of split]. intros [Hc Hr]%andb_true_iff.
  apply negb_true_iff in Hc. rewrite Hc, (IH Hr). done.
Qed.

Lemma split_app (sep : ascii) (s rest : string) :
  free_of sep s = true ->
  split sep (s ++ String sep rest)%string = s :: split sep rest.
Proof.
  induction s as [|c r IH]; cbn [free_of append split].
  - intros _. by rewrite Ascii.eqb_refl.
  - intros [Hc Hr]%andb_true_iff.
    apply negb_true_iff in Hc. rewrite Hc, (IH Hr). done.
Qed.

Lemma free_of_digits (u : Decimal.uint) :
  free_of ":" (DecimalString.NilEmpty.string_of_uint u) = true.
Proof.
  induction u; [reflexivity | ..];
    cbn [DecimalString.NilEmpty.string_of_uint free_of]; by rewrite IHu.
Qed.

Lemma free_of_str_of_int (n : Z) : free_of ":" (str_of_int n) = true.
Proof.
  unfold str_of_int. destruct n as [|p|p]; [reflexivity | ..];
    cbn [Z.to_int DecimalString.NilZero.string_of_int];
    unfold DecimalString.NilZero.string_of_uint;
    destruct (Pos.to_uint p) eqn:Hu; try reflexivity;
    rewrite <- Hu; cbn [free_of]; rewrite ?free_of_digits; reflexivity.
Qed.

Lemma parse_callback_data (i : Z) (l : string) :
  free_of ":" l = true -> valid_label l = true ->
  parse_callback (callback_data (str_of_int i) l) = Request i l.
Proof.
  intros Hfree Hvalid. unfold parse_callback, callback_data.
  change ("label:" ++ str_of_int i ++ ":" ++ l)%string
    with ("label" ++ String ":" (str_of_int i ++ String ":" l))%string.
  rewrite split_app by reflexivity.
  rewrite split_app by apply free_of_str_of_int.
  rewrite split_free by done.
  change (String.eqb "label" "label") with true. cbn [negb].
  by rewrite int_str_of_int, Hvalid.
Qed.

(** X1. The three buttons that [create_priority_keyboard] puts under the card
    of message [i] carry callback data that [handle_label_callback] parses
    back to a labeling request for that same id, with the labels high,
    medium and low in this order; this holds for every integer id. *)
Theorem keyboard_callbacks_parse (i : Z) :
  parse_callback <$> create_priority_keyboard i
  = [Request i "high"; Request i "medium"; Request i "low"].
Proof.
  unfold create_priority_keyboard. cbn [fmap list_fmap].
  by rewrite !parse_callback_data.
Qed.

(** X2. [_get_bot_user_id] recovers the numeric id from every token of the
    form id, colon, secret, whatever the secret holds (further colons
    included). *)
Theorem bot_user_id_of_token (i : Z) (secret : string) :
  _get_bot_user_id (str_of_int i ++ String ":" secret)%string = Some i.
Proof.
  unfold _get_bot_user_id.
  rewrite split_app by apply free_of_str_of_int.
  apply int_str_of_int.
Qed.

(** A token whose first part is not a decimal integer makes
    [_get_bot_user_id] raise. *)
Example bot_user_id_malformed :
  _get_bot_user_id "abc:def" = None /\ _get_bot_user_id "" = None
  /\ _get_bot_user_id "12:34:56" = Some 12.
Proof. repeat split; reflexivity. Qed.

(** ** Truncation and escaping *)

Lemma len_append (a b : string) : len (a ++ b)%string = len a + len b.
Proof.
  unfold len. induction a as [|c a IH]; cbn [append String.length]; lia.
Qed.

Lemma len_take_string (n : nat) (s : string) :
  len (take_string n s) = Z.min (Z.of_nat n) (len s).
Proof.
  unfold len. revert s. induction n as [|n IH]; intros [|c s];
    cbn [take_string String.length]; try lia.
  specialize (IH s). lia.
Qed.

(** X3. For a present text and a limit of at least 3, [truncate_text] returns
    the text itself when it fits the limit, and otherwise its first
    limit − 3 characters followed by three dots, which is exactly limit
    characters long; so the result never exceeds the limit. *)
Theorem truncate_text_bound (s : string) (max_length : Z) :
  s <> EmptyString ->
  3 <= max_length ->
  let r := truncate_text (Some s) max_length in
  len r <= max_length
  /\ (len s <= max_length -> r = s)
  /\ (max_length < len s ->
      r = (take_string (Z.to_nat (max_length - 3)) s ++ "...")%string
      /\ len r = max_length).
Proof.
  intros Hs Hmax r. subst r. unfold truncate_text.
  destruct s as [|c s]; [done |]. cbn [truthy negb].
  destruct (Z.leb_spec (len (String c s)) max_length) as [Hfit|Hlong].
  - split; [done |]. split; [done | lia].
  - unfold slice_to. destruct (Z.ltb_spec (max_length - 3) 0); [lia |].
    assert (Hlen : len (take_string (Z.to_nat (max_length - 3)) (String c s)
                        ++ "...")%string = max_length).
    { rewrite len_append, len_take_string. change (len "...") with 3. lia. }
    split; [lia |]. split; [lia | done].
Qed.

Lemma truncate_text_bound_witness :
  "hello world" <> EmptyString /\ 3 <= 8
  /\ truncate_text (Some "hello world") 8 = "hello...".
Proof.
  assert (H1 : "hello world" <> EmptyString) by discriminate.
  assert (H2 : 3 <= 8) by lia.
  split; [exact H1 |]. split; [exact H2 |].
  exact (proj1 (proj2 (proj2 (truncate_text_bound "hello world" 8 H1 H2))
                  ltac:(vm_compute; reflexivity))).
Defined.

(** Below a limit of 3 the slice counts from the end of the text and the
    result is longer than the limit; an absent or empty text gives the
    nine characters of the placeholder whatever the limit. *)
Example truncate_text_small_limit :
  truncate_text (Some "abcd") 0 = "a..."
  /\ truncate_text (Some "") 5 = "[No text]"
  /\ truncate_text None 5 = "[No text]".
Proof. repeat split; reflexivity. Qed.

Lemma existsb_eqb_false (x : ascii) (cs : list ascii) :
  ~ In x cs -> existsb (Ascii.eqb x) cs = false.
Proof.
  intros Hx. destruct (existsb (Ascii.eqb x) cs) eqn:He; [| done].
  apply existsb_exists in He as (y & Hy & Heq).
  apply Ascii.eqb_eq in Heq as ->. done.
Qed.

Lemma escape_each_replace (c : ascii) (cs : list ascii) (s : string) :
  ~ In c cs -> ~ In backslash cs ->
  escape_each cs (replace_char c (String backslash (String c EmptyString)) s)
  = escape_each (c :: cs) s.
Proof.
  intros Hc Hb. induction s as [|x r IH]; [done |].
  cbn [replace_char escape_each existsb].
  destruct (Ascii.eqb_spec x c) as [->|Hne].
  - cbn [append escape_each orb].
    rewrite (existsb_eqb_false backslash cs Hb), (existsb_eqb_false c cs Hc).
    by rewrite IH.
  - cbn [escape_each orb]. by rewrite IH.
Qed.

Lemma escape_passes (cs : list ascii) (s : string) :
  List.NoDup cs -> ~ In backslash cs ->
  fold_left
    (fun text char =>
       replace_char char (String backslash (String char EmptyString)) text)
    cs s
  = escape_each cs s.
Proof.
  intros Hnd Hb. revert s.
  induction cs as [|c cs IH]; intros s.
  - cbn [fold_left]. induction s as [|x r IHs]; [done |].
    cbn [escape_each existsb]. by rewrite <- IHs.
  - cbn [fold_left]. inversion Hnd as [|? ? Hc Hnd']; subst.
    rewrite IH; [| done | intros H; apply Hb; by right].
    apply escape_each_replace; [done | intros H; apply Hb; by right].
Qed.

Lemma len_escape_each (cs : list ascii) (s : string) :
  len (escape_each cs s) = len s + count_in cs s.
Proof.
  unfold len. induction s as [|c r IH]; [done |].
  cbn [escape_each count_in].
  destruct (existsb (Ascii.eqb c) cs); cbn [String.length]; lia.
Qed.

(** X4. The eighteen successive [replace] passes of [escape_markdown] amount
    to one pass that puts a backslash before every special character and
    keeps the other characters: no character is escaped twice and no
    backslash written by one pass is touched by a later one. The result
    is longer than the text by the number of its special characters. *)
Theorem escape_markdown_one_pass (text : string) :
  escape_markdown text = escape_each special_chars text
  /\ len (escape_markdown text) = len text + count_in special_chars text.
Proof.
  assert (Heq : escape_markdown text = escape_each special_chars text).
  { unfold escape_markdown. apply escape_passes.
    - unfold special_chars.
      repeat (constructor; [cbn [In]; intuition discriminate |]).
      constructor.
    - unfold special_chars, backslash. cbn [In]. intuition discriminate. }
  split; [exact Heq |]. rewrite Heq. apply len_escape_each.
Qed.

Example escape_markdown_sample :
  escape_markdown "a_b (c)!" = String "a" (String backslash (String "_"
    (String "b" (String " " (String backslash (String "("
    (String "c" (String backslash (String ")" (String backslash
    (String "!" EmptyString))))))))))).
Proof. reflexivity. Qed.

(** ** Suggested priority *)

(** X5. The priority that [get_priority_from_score] suggests is always one of
    the three labels that the label callback accepts, and a higher score
    never gets a lower suggestion. *)
Theorem get_priority_from_score_valid_monotone (s1 s2 : Z) :
  valid_label (get_priority_from_score s1) = true
  /\ (s1 <= s2 ->
      label_rank (get_priority_from_score s1)
      <= label_rank (get_priority_from_score s2)).
Proof.
  unfold get_priority_from_score.
  destruct (Z.leb_spec 5 s1), (Z.leb_spec 3 s1), (Z.leb_spec 5 s2),
    (Z.leb_spec 3 s2); split; try reflexivity; intros; cbn; lia.
Qed.

Lemma get_priority_from_score_valid_monotone_witness :
  3 <= 5
  /\ label_rank (get_priority_from_score 3)
     <= label_rank (get_priority_from_score 5).
Proof.
  assert (H : 3 <= 5) by lia.
  split; [exact H |].
  exact (proj2 (get_priority_from_score_valid_monotone 3 5) H).
Defined.

(** ** Questions and mentions *)

Lemma is_space_lower_char (c : ascii) : is_space (lower_char c) = is_space c.
Proof. destruct c as [[] [] [] [] [] [] [] []]; vm_compute; reflexivity. Qed.

Lemma question_mark_lower_char (c : ascii) :
  Ascii.eqb "?" (lower_char c) = Ascii.eqb "?" c.
Proof. destruct c as [[] [] [] [] [] [] [] []]; vm_compute; reflexivity. Qed.

Lemma lower_char_idempotent (c : ascii) :
  lower_char (lower_char c) = lower_char c.
Proof. destruct c as [[] [] [] [] [] [] [] []]; vm_compute; reflexivity. Qed.

Lemma lower_lower (s : string) : lower (lower s) = lower s.
Proof.
  induction s as [|c r IH]; cbn [lower]; [done |].
  by rewrite IH, lower_char_idempotent.
Qed.

Lemma lstrip_lower (s : string) :
  lstrip is_space (lower s) = lower (lstrip is_space s).
Proof.
  induction s as [|c r IH]; [done |].
  cbn [lower lstrip]. rewrite is_space_lower_char.
  by destruct (is_space c).
Qed.

Lemma rstrip_lower (s : string) :
  rstrip is_space (lower s) = lower (rstrip is_space s).
Proof.
  induction s as [|c r IH]; [done |].
  cbn [lower rstrip]. rewrite IH, is_space_lower_char.
  destruct (rstrip is_space r); cbn [lower]; [by destruct (is_space c) | done].
Qed.

Lemma strip_lower (s : string) : strip (lower s) = lower (strip s).
Proof. unfold strip. by rewrite lstrip_lower, rstrip_lower. Qed.

Lemma endswith_lower (s : string) :
  endswith_char "?" (lower s) = endswith_char "?" s.
Proof.
  induction s as [|c r IH]; [done |].
  cbn [lower endswith_char].
  destruct r as [|d r]; cbn [lower]; [apply question_mark_lower_char |].
  exact IH.
Qed.

Lemma rstrip_rstrip sp (s : string) : rstrip sp (rstrip sp s) = rstrip sp s.
Proof.
  induction s as [|c r IH]; [done |].
  cbn [rstrip]. destruct (rstrip sp r) as [|d r'] eqn:Hr.
  - destruct (sp c) eqn:Hc; [done |]. cbn [rstrip]. by rewrite Hc.
  - cbn [rstrip]. cbn [rstrip] in IH. by rewrite IH.
Qed.

Lemma lstrip_head sp (s : string) :
  match lstrip sp s with
  | EmptyString => True
  | String c _ => sp c = false
  end.
Proof.
  induction s as [|c r IH]; [done |].
  cbn [lstrip]. by destruct (sp c) eqn:Hc.
Qed.

Lemma lstrip_rstrip sp (s : string) :
  match s with EmptyString => True | String c _ => sp c = false end ->
  lstrip sp (rstrip sp s) = rstrip sp s.
Proof.
  destruct s as [|c r]; [done |]. intros Hc.
  cbn [rstrip]. destruct (rstrip sp r); [rewrite Hc |]; cbn [lstrip];
    by rewrite Hc.
Qed.

Lemma strip_strip (s : string) : strip (strip s) = strip s.
Proof.
  unfold strip.
  rewrite lstrip_rstrip by apply lstrip_head.
  apply rstrip_rstrip.
Qed.

Lemma no_starter_of_empty :
  existsb (fun starter => String.prefix starter EmptyString)
          question_starters = false.
Proof. reflexivity. Qed.

(** X6. [detect_question] looks at the text without regard to case and to
    white space around it: lower-casing the text, or stripping it, does not
    change the answer. *)
Theorem detect_question_ignores_case_and_margin (t : string) :
  detect_question (Some (lower t)) = detect_question (Some t)
  /\ detect_question (Some (strip t)) = detect_question (Some t).
Proof.
  split.
  - unfold detect_question.
    destruct t as [|c r]; [done |]. cbn [lower truthy negb].
    change (String (lower_char c) (lower r)) with (lower (String c r)).
    by rewrite strip_lower, endswith_lower, lower_lower.
  - unfold detect_question.
    destruct t as [|c r]; [done |]. cbn [truthy negb].
    destruct (strip (String c r)) as [|d u] eqn:Hs.
    + cbn [truthy negb endswith_char lower]. by rewrite no_starter_of_empty.
    + cbn [truthy negb]. rewrite <- Hs. by rewrite strip_strip.
Qed.

Example detect_question_samples :
  detect_question (Some "  ARE you there  ") = true
  /\ detect_question (Some "see you at 5?  ") = true
  /\ detect_question (Some "whatever") = true
  /\ detect_question (Some "   ") = false
  /\ detect_question (Some "is") = false.
Proof. repeat split; reflexivity. Qed.

(** X7. Without a username, [detect_mention] answers true exactly for the
    texts that contain an at-sign followed by one or more word
    characters. *)
Theorem detect_mention_pattern_iff (t : string) :
  detect_mention (Some t) None = true <-> has_mention_token t.
Proof.
  rewrite detect_mention_cases, orb_false_r. apply search_mention_spec.
Qed.

Lemma contains_literal_word (c : ascii) (u t : string) :
  is_word c = true ->
  contains (String "@" (String c u)) (lower t) = true ->
  is_match (search_mention t) = true.
Proof.
  intros Hc. induction t as [|x r IH]; cbn [lower contains].
  - discriminate.
  - intros [[post Hp]%prefix_spec | Hr]%orb_true_iff.
    + simpl in Hp. injection Hp as Hx Hrest.
      apply lower_char_at in Hx as ->.
      destruct r as [|d r]; [discriminate |].
      simpl in Hrest. injection Hrest as Hd _.
      apply search_mention_here, match_mention_word.
      by rewrite <- (is_word_lower_char d), Hd.
    + apply search_mention_later, IH.
      destruct (lower r); exact Hr.
Qed.

(** X8. For a username that starts with a word character, as the usernames of
    Telegram do, the username argument has no effect: [detect_mention]
    answers as it does without a username, since every text in which the
    username check succeeds also matches the general pattern. *)
Theorem detect_mention_username_redundant (t : string) (c : ascii) (u : string) :
  is_word c = true ->
  detect_mention (Some t) (Some (String c u)) = detect_mention (Some t) None.
Proof.
  intros Hc. rewrite !detect_mention_cases, orb_false_r.
  destruct (is_match (search_mention t)) eqn:Hm; [done |].
  cbn [orb].
  destruct (contains (String "@" (String c u)) (lower t)) eqn:Hcon;
    [| by rewrite andb_false_r].
  by rewrite (contains_literal_word c u t Hc Hcon) in Hm.
Qed.

Lemma detect_mention_username_redundant_witness :
  is_word "b" = true
  /\ detect_mention (Some "ping @BOB") (Some "bob")
     = detect_mention (Some "ping @BOB") None.
Proof.
  split; [reflexivity |].
  exact (detect_mention_username_redundant "ping @BOB" "b" "ob" eq_refl).
Defined.

(** ** Logging *)

Lemma truthy_len (s : string) : truthy (Some s) = (0 <? len s).
Proof.
  destruct s; [done |]. cbn [truthy]. symmetry. apply Z.ltb_lt.
  unfold len. cbn [String.length]. lia.
Qed.

(** X9. The text that [sanitize_for_logging] writes to the log depends on the
    message text only through its length: two texts of the same length are
    logged alike. *)
Theorem sanitize_for_logging_hides_content (t1 t2 : string) :
  len t1 = len t2 ->
  sanitize_for_logging (Some t1) = sanitize_for_logging (Some t2).
Proof.
  intros Hlen. unfold sanitize_for_logging.
  by rewrite !truthy_len, Hlen.
Qed.

Lemma sanitize_for_logging_hides_content_witness :
  len "secret" = len "public"
  /\ sanitize_for_logging (Some "secret") = sanitize_for_logging (Some "public").
Proof.
  split; [reflexivity |].
  exact (sanitize_for_logging_hides_content "secret" "public" eq_refl).
Defined.

Example sanitize_for_logging_samples :
  sanitize_for_logging (Some "secret") = "[6 chars]"
  /\ sanitize_for_logging None = "[empty]".
Proof. split; reflexivity. Qed.

(** ** What the intake stores *)

Lemma sql_update_fresh c f (l : ledger) :
  (forall m, m ∈ l -> c m = false) -> sql_update c f l = l.
Proof.
  intros Hc. unfold sql_update.
  induction l as [|m l IH]; [done |].
  rewrite fmap_cons, Hc by apply list_elem_of_here.
  f_equal. apply IH. intros m' Hm'. apply Hc. by apply list_elem_of_further.
Qed.

Lemma sql_update_new_row i f (l : ledger) (r : Message) :
  i = next_id l -> id r = i ->
  sql_update (fun m => id m =? i) f (l ++ [r]) = l ++ [f r].
Proof.
  intros -> Hr. unfold sql_update at 1. rewrite fmap_app.
  fold (sql_update (fun m => id m =? next_id l) f l).
  rewrite sql_update_fresh.
  - cbn [fmap list_fmap]. by rewrite Hr, Z.eqb_refl.
  - intros m Hm. apply Z.eqb_neq. apply next_id_fresh in Hm. lia.
Qed.

Lemma save_message_db cfg hp e tid cid title type uid name text ts cu w :
  let row := intake_row hp e (next_id (db w)) tid cid title type uid name
                        text ts cu in
  db (exec (save_message cfg hp e tid cid title type uid name text ts cu) w)
  = if persist_ok e then
      db w ++ [if (warning_threshold_score cfg
                   <=? intake_score hp uid text cu)
                  && bot_app e && (send_ok e && mark_ok e)
               then set_warning (sent_at e) row else row]
    else db w.
Proof.
  intros row. unfold exec. rewrite save_message_run. cbv zeta. fold row.
  destruct (persist_ok e); [| done].
  destruct (warning_threshold_score cfg <=? intake_score hp uid text cu);
    [| done].
  destruct (bot_app e); [| done].
  destruct (send_ok e && mark_ok e); [| done].
  cbn [andb snd db]. by apply sql_update_new_row.
Qed.

(** X10. [save_message] never touches a stored row: the table afterwards is the
    table before, followed by one new row when the insert was committed
    and by nothing when it was not. The new row has the next id, no label
    and no claim, and carries the alert mark exactly when the score
    reached the threshold, the bot was running, the alert was sent and the
    update that records it was committed. *)
Theorem save_message_appends
    cfg hp e tid cid title type uid name text ts cu w :
  let run := save_message cfg hp e tid cid title type uid name text ts cu in
  let row := intake_row hp e (next_id (db w)) tid cid title type uid name
                        text ts cu in
  let alerted := (warning_threshold_score cfg <=? intake_score hp uid text cu)
                 && bot_app e && (send_ok e && mark_ok e) in
  db (exec run w)
  = (if persist_ok e
     then db w ++ [if alerted then set_warning (sent_at e) row else row]
     else db w)
  /\ id row = next_id (db w)
  /\ label row = None /\ included_in_summary row = false
  /\ warning_sent row = false
  /\ (forall m, m ∈ db w -> id m <> id row).
Proof.
  intros run row alerted. split; [apply save_message_db |].
  repeat split; try reflexivity.
  intros m Hm. apply next_id_fresh in Hm. cbn. lia.
Qed.

(** ** Rows stay well formed *)

Lemma foldr_max_nonneg (zs : list Z) : 0 <= foldr Z.max 0 zs.
Proof. induction zs as [|z zs IH]; cbn [foldr]; lia. Qed.

Lemma next_id_positive (l : ledger) : 1 <= next_id l.
Proof. unfold next_id. pose proof (foldr_max_nonneg (id <$> l)). lia. Qed.

Lemma row_ok_intake_row cfg hp e (l : ledger) tid cid title type uid name text ts cu :
  row_ok cfg (intake_row hp e (next_id l) tid cid title type uid name text ts cu).
Proof.
  split; cbn; try done.
  - apply next_id_positive.
  - by exists cu.
  - by exists (bool_decide (uid ∈ hp)).
  - unfold generate_topic_summary, text_length.
    destruct text as [s|]; [| done].
    destruct (truthy (Some s)); cbn [negb orb]; [| done].
    intros Hlen. by apply Z.ltb_lt in Hlen as ->.
Qed.

Lemma row_ok_set_warning cfg now m :
  warning_threshold_score cfg <= priority_score m ->
  row_ok cfg m -> row_ok cfg (set_warning now m).
Proof. intros Hthr [? ? ? ? ? ? ? ? ?]. by split. Qed.

Lemma row_ok_set_label cfg lab now m :
  valid_label lab = true -> row_ok cfg m -> row_ok cfg (set_label lab now m).
Proof. intros Hlab [? ? ? ? ? ? ? ? ?]. by split. Qed.

Lemma row_ok_set_summary cfg now m :
  row_ok cfg m -> row_ok cfg (set_summary now m).
Proof. intros [? ? ? ? ? ? ? ? ?]. by split. Qed.

Lemma Forall_sql_update (P : Message -> Prop) c f (l : ledger) :
  (forall m, c m = true -> P m -> P (f m)) ->
  Forall P l -> Forall P (sql_update c f l).
Proof.
  intros Hf Hl. unfold sql_update. apply Forall_fmap.
  eapply Forall_impl; [exact Hl |].
  intros m Hm. cbn. destruct (c m) eqn:Hc; [by apply Hf | done].
Qed.

Lemma parse_callback_valid data i lab :
  parse_callback data = Request i lab -> valid_label lab = true.
Proof.
  unfold parse_callback.
  destruct (split ":" data) as [|p0 [|mid [|l [|x xs]]]]; try discriminate.
  destruct (String.eqb p0 "label"); cbn [negb]; [| discriminate].
  destruct (int mid); [| discriminate].
  destruct (valid_label l) eqn:Hl; cbn [negb]; [| discriminate].
  by intros [= _ <-].
Qed.

Lemma save_message_rows_ok cfg hp e tid cid title type uid name text ts cu w :
  Forall (row_ok cfg) (db w) ->
  Forall (row_ok cfg)
    (db (exec (save_message cfg hp e tid cid title type uid name text ts cu) w)).
Proof.
  intros Hok. rewrite save_message_db. cbv zeta.
  destruct (persist_ok e); [| done].
  apply Forall_app. split; [done |]. apply Forall_singleton.
  destruct (Z.leb_spec (warning_threshold_score cfg)
                       (intake_score hp uid text cu)) as [Hthr|_].
  - cbn [andb]. destruct (bot_app e && (send_ok e && mark_ok e));
      [| apply row_ok_intake_row].
    apply row_ok_set_warning; [exact Hthr | apply row_ok_intake_row].
  - cbn [andb]. apply row_ok_intake_row.
Qed.

Lemma handle_label_callback_rows_ok cfg e data w :
  Forall (row_ok cfg) (db w) ->
  Forall (row_ok cfg) (db (exec (handle_label_callback e data) w)).
Proof.
  intros Hok. unfold exec. rewrite handle_label_callback_run. cbn [snd db].
  unfold label_db. destruct (answer_ok e); [| done].
  destruct (parse_callback data) as [| | |i lab] eqn:Hparse; try done.
  destruct (sql_select _ (db w)) as [|m [|m' rows]]; try done.
  destruct (session_ok e); [| done].
  apply Forall_sql_update; [| done].
  intros m0 _. apply row_ok_set_label. by eapply parse_callback_valid.
Qed.

Lemma generate_and_send_summary_rows_ok cfg e w :
  Forall (row_ok cfg) (db w) ->
  Forall (row_ok cfg) (db (exec (generate_and_send_summary cfg e) w)).
Proof.
  intros Hok. rewrite generate_and_send_summary_db. unfold summary_db.
  destruct (stats_ok e && negb (run_total cfg e (db w) =? 0) && select_ok e);
    [| done].
  apply Forall_sql_update; [| done].
  intros m _. apply row_ok_set_summary.
Qed.

Lemma run_op_rows_ok cfg o w :
  Forall (row_ok cfg) (db w) ->
  Forall (row_ok cfg) (db (exec (run_op cfg o) w)).
Proof.
  destruct o as [hp e tid cid title type uid name text ts cu | e data | e | e];
    cbn [run_op].
  - apply save_message_rows_ok.
  - apply handle_label_callback_rows_ok.
  - apply generate_and_send_summary_rows_ok.
  - intros Hok. unfold trigger_summary_now, exec, log, emit, mbind, M_bind.
    by apply (generate_and_send_summary_rows_ok cfg e
                (mkWorld (db w) (trace w ++ [Log INFO]))).
Qed.

(** X11. Starting from the empty table, every row that any sequence of
    captures, label callbacks and summary runs leaves in the table is well
    formed: its length, question flag, mention flag and score are those
    computed from its text, so the score lies between 0 and 8; a text
    shorter than 10 characters has no topic; the label is absent or one
    of high, medium, low, and present together with its time; the claim
    flag and the alert flag are set together with their times; and an
    alert mark implies a score at or above the warning threshold. *)
Theorem reachable_rows_well_formed cfg (os : list op) (tr : list event) :
  Forall (fun m => row_ok cfg m /\ 0 <= priority_score m <= 8)
         (db (exec_ops cfg os (mkWorld [] tr))).
Proof.
  assert (Hok : Forall (row_ok cfg) (db (exec_ops cfg os (mkWorld [] tr)))).
  { unfold exec_ops.
    assert (Hnil : Forall (row_ok cfg) (db (mkWorld [] tr))) by constructor.
    revert Hnil. generalize (mkWorld [] tr) as w.
    induction os as [|o os IH]; intros w Hw; [done |].
    cbn [foldl]. apply IH. by apply run_op_rows_ok. }
  eapply Forall_impl; [exact Hok |].
  intros m Hm. split; [done |].
  destruct (ok_score cfg m Hm) as [hp ->].
  apply calculate_priority_score_range.
Qed.

(** ** Captured data are never rewritten *)

Lemma row_evolves_refl m : row_evolves m m.
Proof. by split. Qed.

Lemma row_evolves_trans m1 m2 m3 :
  row_evolves m1 m2 -> row_evolves m2 m3 -> row_evolves m1 m3.
Proof.
  intros [] []. split; try congruence; auto.
Qed.

Lemma ledger_change_sql_update c f (l : ledger) :
  (forall m, row_evolves m (f m)) -> ledger_change l (sql_update c f l).
Proof.
  intros Hf. rewrite sql_update_fmap. apply change_update.
  intros m. destruct (c m); [apply Hf | apply row_evolves_refl].
Qed.

Lemma row_evolves_set_label lab now m : row_evolves m (set_label lab now m).
Proof. by split. Qed.

Lemma row_evolves_set_summary now m : row_evolves m (set_summary now m).
Proof. by split. Qed.

Lemma row_evolves_set_warning now m : row_evolves m (set_warning now m).
Proof. by split. Qed.

Lemma ledger_change_row i l l' m :
  ledger_change l l' -> row_of i l = Some m ->
  exists m', row_of i l' = Some m' /\ row_evolves m m'.
Proof.
  intros [g l0 Hg | r l0 Hr] Hrow.
  - exists (g m). rewrite row_of_fmap, Hrow by (intros x; apply Hg).
    split; [done | apply Hg].
  - exists m. split; [by apply row_of_app_old | apply row_evolves_refl].
Qed.

Lemma rtc_ledger_change_row i l l' m :
  rtc ledger_change l l' -> row_of i l = Some m ->
  exists m', row_of i l' = Some m' /\ row_evolves m m'.
Proof.
  intros Hsteps. revert m.
  induction Hsteps as [l|l l1 l2 Hstep _ IH]; intros m Hrow.
  - exists m. split; [done | apply row_evolves_refl].
  - destruct (ledger_change_row i l l1 m Hstep Hrow) as (m1 & Hrow1 & Hev1).
    destruct (IH m1 Hrow1) as (m2 & Hrow2 & Hev2).
    exists m2. split; [done | by eapply row_evolves_trans].
Qed.

Lemma ledger_change_step l l' : ledger_change l l' -> ledger_step l l'.
Proof.
  intros [g l0 Hg | r l0 Hr].
  - apply step_update; intros m; [apply Hg | apply (ev_included _ _ (Hg m))].
  - by apply step_insert.
Qed.

Lemma save_message_changes cfg hp e tid cid title type uid name text ts cu w :
  rtc ledger_change (db w)
    (db (exec (save_message cfg hp e tid cid title type uid name text ts cu) w)).
Proof.
  unfold exec. rewrite save_message_run. cbv zeta.
  set (row := intake_row hp e (next_id (db w)) tid cid title type uid name
                         text ts cu).
  assert (Hins : ledger_change (db w) (db w ++ [row])) by by apply change_insert.
  destruct (persist_ok e); [| apply rtc_refl].
  destruct (warning_threshold_score cfg <=? intake_score hp uid text cu);
    [| by apply rtc_once].
  destruct (bot_app e); [| by apply rtc_once].
  destruct (send_ok e && mark_ok e); [| by apply rtc_once].
  simpl. eapply rtc_l; [exact Hins |].
  apply rtc_once, ledger_change_sql_update, row_evolves_set_warning.
Qed.

Lemma handle_label_callback_changes e data w :
  rtc ledger_change (db w) (db (exec (handle_label_callback e data) w)).
Proof.
  unfold exec. rewrite handle_label_callback_run. simpl.
  unfold label_db.
  destruct (answer_ok e); [| apply rtc_refl].
  destruct (parse_callback data) as [| | |i lab]; try apply rtc_refl.
  destruct (sql_select _ (db w)) as [|m [|m' rows]]; try apply rtc_refl.
  destruct (session_ok e); [| apply rtc_refl].
  apply rtc_once, ledger_change_sql_update, row_evolves_set_label.
Qed.

Lemma generate_and_send_summary_changes cfg e w :
  rtc ledger_change (db w) (db (exec (generate_and_send_summary cfg e) w)).
Proof.
  rewrite generate_and_send_summary_db. unfold summary_db.
  destruct (stats_ok e && negb (run_total cfg e (db w) =? 0) && select_ok e);
    [| apply rtc_refl].
  apply rtc_once, ledger_change_sql_update, row_evolves_set_summary.
Qed.

Lemma run_op_changes cfg o w :
  rtc ledger_change (db w) (db (exec (run_op cfg o) w)).
Proof.
  destruct o as [hp e tid cid title type uid name text ts cu | e data | e | e];
    cbn [run_op].
  - apply save_message_changes.
  - apply handle_label_callback_changes.
  - apply generate_and_send_summary_changes.
  - unfold trigger_summary_now, exec, log, emit, mbind, M_bind.
    apply (generate_and_send_summary_changes cfg e
             (mkWorld (db w) (trace w ++ [Log INFO]))).
Qed.

Lemma exec_ops_changes cfg os w :
  rtc ledger_change (db w) (db (exec_ops cfg os w)).
Proof.
  unfold exec_ops. revert w.
  induction os as [|o os IH]; intros w; [apply rtc_refl |].
  simpl. etrans; [apply (run_op_changes cfg o) | apply IH].
Qed.

(** X12. Whatever sequence of captures, label callbacks and summary runs is
    executed, a stored row stays in the table under its id with the same
    captured data (source ids, chat, sender, text, capture time, flags
    derived from the text, length, score, topic); and a label, a claim or
    an alert mark that it has is never removed. *)
Theorem rows_only_gain_marks cfg (os : list op) (w : world) i m :
  row_of i (db w) = Some m ->
  exists m', row_of i (db (exec_ops cfg os w)) = Some m' /\ row_evolves m m'.
Proof.
  apply rtc_ledger_change_row, exec_ops_changes.
Qed.

Lemma rows_only_gain_marks_witness :
  row_of 3 (db (mkWorld scenario_B [])) = Some (scenario_row 3 51 (at_time 17 10) 5)
  /\ exists m',
       row_of 3 (db (exec_ops scenario_cfg
                       [OpSummary scenario_summary_env;
                        OpLabel scenario_label_env "label:3:low"]
                       (mkWorld scenario_B []))) = Some m'
       /\ row_evolves (scenario_row 3 51 (at_time 17 10) 5) m'.
Proof.
  split; [reflexivity |].
  exact (rows_only_gain_marks scenario_cfg
           [OpSummary scenario_summary_env;
            OpLabel scenario_label_env "label:3:low"]
           (mkWorld scenario_B []) 3 (scenario_row 3 51 (at_time 17 10) 5)
           eq_refl).
Defined.

(** X13. A row that has a label is never returned by the selector again,
    whatever operations run before the selector does, and although a
    later callback may replace the label by another one. *)
Theorem labeled_never_selected cfg (os : list op) (w : world) i m
    e hours limit sel w' :
  pk_unique (db w) ->
  row_of i (db w) = Some m ->
  label m <> None ->
  get_unlabeled_messages cfg e hours limit (exec_ops cfg os w) = (Ok sel, w') ->
  forall m2, m2 ∈ sel -> id m2 <> i.
Proof.
  intros Hpk Hrow Hlab Hrun m2 Hm2 Hid.
  destruct (rtc_ledger_change_row i _ _ m (exec_ops_changes cfg os w) Hrow)
    as (m' & Hrow' & Hev).
  assert (Hpk' : pk_unique (db (exec_ops cfg os w)))
    by (eapply rtc_ledger_step_pk_unique; [apply exec_ops_steps | done]).
  rewrite get_unlabeled_messages_run in Hrun. cbv zeta in Hrun.
  destruct (select_ok e); [| discriminate].
  injection Hrun as <- _.
  apply marked_elem in Hm2 as (m0 & Hm0 & ->).
  change (id (set_summary (claim_now e) m0)) with (id m0) in Hid.
  apply selection_elem in Hm0 as [Hin Hsel].
  apply selectable_spec in Hsel as (_ & Hnone & _).
  rewrite <- Hid, (row_of_unique _ m0 Hpk' Hin) in Hrow'.
  injection Hrow' as ->.
  by apply (ev_label _ _ Hev Hlab).
Qed.

Lemma labeled_never_selected_witness :
  pk_unique (db (mkWorld scenario_D []))
  /\ forall m2,
       m2 ∈ selection scenario_cfg (at_time 16 0) 10 scenario_D ->
       id m2 <> 1.
Proof.
  assert (Hpk : pk_unique (db (mkWorld scenario_D [])))
    by (apply (bool_decide_unpack _); vm_compute; exact I).
  split; [exact Hpk |].
  intros m2 Hm2.
  refine (labeled_never_selected scenario_cfg [] (mkWorld scenario_D []) 1
            (set_label "high" (at_time 18 0) (scenario_row 1 50 (at_time 17 0) 3))
            scenario_summary_env 4 10%nat
            (fmap (M := list) (set_summary (at_time 20 1))
                  (selection scenario_cfg (at_time 16 0) 10 scenario_D))
            _ Hpk eq_refl _ eq_refl
            (set_summary (at_time 20 1) m2) _).
  - discriminate.
  - by apply list_elem_of_fmap_2.
Defined.

(** ** Ids of a reachable table *)

(** X14. The primary key stays unique: from a table whose rows have
    pairwise different ids, and so from the empty table, any sequence of
    captures, label callbacks and summary runs leads to a table whose rows
    have pairwise different ids; no capture is stored under the id of a
    row that exists. *)
Theorem reachable_ids_unique cfg (os : list op) (w : world) :
  pk_unique (db w) ->
  NoDup (id <$> db (exec_ops cfg os w))
  /\ forall tr, NoDup (id <$> db (exec_ops cfg os (mkWorld [] tr))).
Proof.
  intros Hpk. split.
  - eapply rtc_ledger_step_pk_unique; [apply exec_ops_steps | exact Hpk].
  - intros tr.
    eapply rtc_ledger_step_pk_unique; [apply exec_ops_steps |]. constructor.
Qed.

Lemma reachable_ids_unique_witness :
  pk_unique (db (mkWorld scenario_B []))
  /\ NoDup (id <$> db (exec_ops scenario_cfg
                         [OpSummary scenario_summary_env;
                          OpLabel scenario_label_env "label:3:low"]
                         (mkWorld scenario_B []))).
Proof.
  assert (Hpk : pk_unique (db (mkWorld scenario_B [])))
    by (apply (bool_decide_unpack _); vm_compute; exact I).
  split; [exact Hpk |].
  exact (proj1 (reachable_ids_unique scenario_cfg
                  [OpSummary scenario_summary_env;
                   OpLabel scenario_label_env "label:3:low"]
                  (mkWorld scenario_B []) Hpk)).
Defined.

(** ** At most one alert per message *)

Lemma next_id_app (l : ledger) (r : Message) :
  id r = next_id l -> next_id (l ++ [r]) = next_id l + 1.
Proof.
  intros Hr. unfold next_id in *. rewrite fmap_app, foldr_app.
  cbn [fmap list_fmap foldr]. rewrite Hr.
  assert (Hgen : forall (zs : list Z) (a : Z),
            foldr Z.max a zs = Z.max a (foldr Z.max 0 zs) \/ a < 0).
  { intros zs a. destruct (Z.lt_ge_cases a 0); [by right | left].
    induction zs as [|z zs IHz]; cbn [foldr]; lia. }
  pose proof (foldr_max_nonneg (id <$> l)) as Hnn.
  destruct (Hgen (id <$> l) (Z.max (1 + foldr Z.max 0 (id <$> l)) 0));
    lia.
Qed.

Lemma ledger_step_next_id l l' : ledger_step l l' -> next_id l <= next_id l'.
Proof.
  intros [g l0 Hid _ | r l0 Hr].
  - unfold next_id. rewrite <- list_fmap_compose.
    erewrite (list_fmap_ext (id ∘ g) id); [done |].
    intros k m _. apply Hid.
  - rewrite next_id_app by done. lia.
Qed.

Lemma rtc_ledger_step_next_id l l' :
  rtc ledger_step l l' -> next_id l <= next_id l'.
Proof.
  induction 1 as [|l1 l2 l3 Hstep _ IH]; [done |].
  apply ledger_step_next_id in Hstep. lia.
Qed.

Lemma warned_app (a b : list event) : warned (a ++ b) = warned a ++ warned b.
Proof. apply omap_app. Qed.

Lemma summary_events_warned cfg e l : warned (summary_events cfg e l) = [].
Proof.
  unfold summary_events, report_failure.
  destruct (stats_ok e), (run_total cfg e l =? 0), (select_ok e),
    (run_selection cfg e l), (bot_up e), (deliver_ok e); reflexivity.
Qed.

Lemma label_events_warned e data l : warned (label_events e data l) = [].
Proof.
  unfold label_events, reply_failure.
  destruct (answer_ok e), (parse_callback data) as [| | |i lab];
    try reflexivity.
  destruct (sql_select _ l) as [|m [|m' rows]], (session_ok e), (edit_ok e);
    reflexivity.
Qed.

Lemma run_op_warned cfg o w :
  exists ev,
    trace (exec (run_op cfg o) w) = trace w ++ ev
    /\ (warned ev = []
        \/ (warned ev = [next_id (db w)]
            /\ next_id (db w) < next_id (db (exec (run_op cfg o) w)))).
Proof.
  destruct o as [hp e tid cid title type uid name text ts cu | e data | e | e];
    cbn [run_op].
  - pose proof (save_message_db cfg hp e tid cid title type uid name text ts
                  cu w) as Hdb.
    cbv zeta in Hdb. revert Hdb. unfold exec.
    rewrite save_message_run. cbv zeta.
    destruct (persist_ok e); [| intros _; eexists; split; [done | by left]].
    destruct (warning_threshold_score cfg <=? intake_score hp uid text cu);
      [| intros _; eexists; split; [done | by left]].
    destruct (bot_app e); [| intros _; eexists; split; [done | by left]].
    cbn [andb].
    intros Hdb.
    destruct (send_ok e && mark_ok e); cbn [snd] in *;
      (eexists; split; [done |]; right; split; [done |]);
      rewrite Hdb, next_id_app by done; lia.
  - unfold exec. rewrite handle_label_callback_run. cbn [snd trace].
    eexists. split; [done |]. left. apply label_events_warned.
  - unfold scheduled_summary_job, is_quiet_hours, exec.
    rewrite generate_and_send_summary_run. cbn [snd trace].
    eexists. split; [done |]. left. apply summary_events_warned.
  - unfold trigger_summary_now, exec, log, emit, mbind, M_bind.
    rewrite generate_and_send_summary_run. cbn [snd trace db].
    exists (Log INFO :: summary_events cfg e (db w)).
    split; [by rewrite <- app_assoc |]. left.
    apply (summary_events_warned cfg e (db w)).
Qed.

Lemma run_op_alert_invariant cfg o w :
  NoDup (warned (trace w)) ->
  (forall j, j ∈ warned (trace w) -> j < next_id (db w)) ->
  NoDup (warned (trace (exec (run_op cfg o) w)))
  /\ (forall j, j ∈ warned (trace (exec (run_op cfg o) w)) ->
                j < next_id (db (exec (run_op cfg o) w))).
Proof.
  intros Hnd Hlt.
  pose proof (rtc_ledger_step_next_id _ _ (run_op_steps cfg o w)) as Hmono.
  destruct (run_op_warned cfg o w) as (ev & -> & [Hnone | [Hone Hgrow]]);
    rewrite warned_app.
  - rewrite Hnone, app_nil_r. split; [done |].
    intros j Hj. apply Hlt in Hj. lia.
  - rewrite Hone. split.
    + apply NoDup_app. split; [done |]. split; [| apply NoDup_singleton].
      intros j Hj Hj'. apply list_elem_of_singleton in Hj' as ->.
      apply Hlt in Hj. lia.
    + intros j [Hj | Hj]%elem_of_app.
      * apply Hlt in Hj. lia.
      * apply list_elem_of_singleton in Hj as ->. lia.
Qed.

(** X15. Along any sequence of captures, label callbacks and summary runs that
    starts with an empty trace, no message id occurs in two alerts sent to
    Telegram: a message is alerted at most once. *)
Theorem alerted_at_most_once cfg (os : list op) (l : ledger) :
  NoDup (warned (trace (exec_ops cfg os (mkWorld l [])))).
Proof.
  unfold exec_ops.
  assert (Hinv : NoDup (warned (trace (mkWorld l [])))
                 /\ (forall j, j ∈ warned (trace (mkWorld l [])) ->
                               j < next_id (db (mkWorld l [])))).
  { split; [constructor | intros j Hj; by apply elem_of_nil in Hj]. }
  revert Hinv. generalize (mkWorld l []) as w.
  induction os as [|o os IH]; intros w [Hnd Hlt]; [done |].
  cbn [foldl]. apply IH. by apply run_op_alert_invariant.
Qed.

(** ** The raw counts *)

Lemma in_window_sql_update cutoff c f (l : ledger) :
  (forall m, timestamp (f m) = timestamp m) ->
  in_window cutoff (sql_update c f l) = sql_update c f (in_window cutoff l).
Proof.
  intros Hts. unfold in_window, sql_select, sql_update.
  induction l as [|m l IH]; [done |].
  rewrite fmap_cons. cbn [List.filter].
  assert (Hm : timestamp (if c m then f m else m) = timestamp m)
    by (destruct (c m); [apply Hts | done]).
  rewrite Hm. destruct (cutoff <=? timestamp m); [| exact IH].
  rewrite fmap_cons. by rewrite IH.
Qed.

Lemma chat_ids_sql_update c f (l : ledger) :
  (forall m, chat_id (f m) = chat_id m) ->
  chat_id <$> sql_update c f l = chat_id <$> l.
Proof.
  intros Hc. unfold sql_update. rewrite <- list_fmap_compose.
  apply list_fmap_ext. intros k m _. cbn.
  destruct (c m); [apply Hc | done].
Qed.

Lemma stats_sql_update e hours c f w :
  (forall m, timestamp (f m) = timestamp m) ->
  (forall m, chat_id (f m) = chat_id m) ->
  fst (get_message_stats e hours (mkWorld (sql_update c f (db w)) (trace w)))
  = fst (get_message_stats e hours w).
Proof.
  intros Hts Hc. rewrite !get_message_stats_run. cbv zeta. cbn [db].
  destruct (stats_ok e); [| done]. cbn [fst].
  rewrite in_window_sql_update by done.
  rewrite chat_ids_sql_update by done.
  unfold sql_update at 1. by rewrite length_fmap.
Qed.

Lemma get_message_stats_db e hours w tr :
  fst (get_message_stats e hours (mkWorld (db w) tr))
  = fst (get_message_stats e hours w).
Proof.
  rewrite !get_message_stats_run. cbv zeta. by destruct (stats_ok e).
Qed.

(** X16. The raw counts of [get_message_stats] do not depend on labels and
    claims: for the same clock reading they are the same before and after
    a label callback, and before and after a summary run. *)
Theorem stats_ignore_labels_and_claims cfg e hours w :
  (forall el data,
     fst (get_message_stats e hours (exec (handle_label_callback el data) w))
     = fst (get_message_stats e hours w))
  /\ (forall es,
        fst (get_message_stats e hours
               (exec (generate_and_send_summary cfg es) w))
        = fst (get_message_stats e hours w)).
Proof.
  split.
  - intros el data. unfold exec. rewrite handle_label_callback_run.
    cbn [snd]. unfold label_db.
    destruct (answer_ok el); [| apply get_message_stats_db].
    destruct (parse_callback data) as [| | |i lab];
      try apply get_message_stats_db.
    destruct (sql_select _ (db w)) as [|m [|m' rows]];
      try apply get_message_stats_db.
    destruct (session_ok el); [| apply get_message_stats_db].
    rewrite <- (stats_sql_update e hours (fun m => id m =? i)
                  (set_label lab (label_now el)) w) by done.
    apply (get_message_stats_db e hours (mkWorld _ (trace w))).
  - intros es. unfold exec. rewrite generate_and_send_summary_run.
    cbn [snd]. unfold summary_db.
    destruct (stats_ok es && negb (run_total cfg es (db w) =? 0)
              && select_ok es); [| apply get_message_stats_db].
    unfold claim.
    rewrite <- (stats_sql_update e hours
                  (fun m => bool_decide (id m ∈ id <$> run_selection cfg es (db w)))
                  (set_summary (claim_now es)) w) by done.
    apply (get_message_stats_db e hours (mkWorld _ (trace w))).
Qed.

Lemma length_remove_dups_le (zs : list Z) :
  (length (remove_dups zs) <= length zs)%nat.
Proof.
  apply submseteq_length, NoDup_submseteq; [apply NoDup_remove_dups |].
  intros x. by rewrite elem_of_remove_dups.
Qed.

Lemma remove_dups_nil_iff (zs : list Z) : remove_dups zs = [] <-> zs = [].
Proof.
  split; [| by intros ->].
  destruct zs as [|z zs]; [done |]. intros H.
  assert (Hz : z ∈ remove_dups (z :: zs))
    by (apply elem_of_remove_dups, list_elem_of_here).
  rewrite H in Hz. by apply elem_of_nil in Hz.
Qed.

(** X17. When the statistics query succeeds, the number of distinct chats is
    at most the number of messages, and it is zero exactly when the
    number of messages is zero; the query changes neither the table nor
    the trace. *)
Theorem get_message_stats_counts e hours w total chats w' :
  get_message_stats e hours w = (Ok (total, chats), w') ->
  0 <= chats <= total /\ (chats = 0 <-> total = 0) /\ w' = w.
Proof.
  rewrite get_message_stats_run. cbv zeta.
  destruct (stats_ok e); [| discriminate].
  intros [= <- <- <-].
  set (rows := in_window (stats_now e - hours_delta hours) (db w)).
  pose proof (length_remove_dups_le (chat_id <$> rows)) as Hle.
  rewrite length_fmap in Hle.
  split; [lia |]. split; [| done].
  split; intros H0.
  - assert (Hnil : remove_dups (chat_id <$> rows) = [])
      by (apply length_zero_iff_nil; lia).
    apply remove_dups_nil_iff, fmap_nil_inv in Hnil. by rewrite Hnil.
  - assert (Hnil : rows = []) by (apply length_zero_iff_nil; lia).
    by rewrite Hnil.
Qed.

Lemma get_message_stats_counts_witness :
  get_message_stats scenario_summary_env 4 (mkWorld scenario_B [])
  = (Ok (12, 4), mkWorld scenario_B [])
  /\ 0 <= 4 <= 12.
Proof.
  assert (H : get_message_stats scenario_summary_env 4 (mkWorld scenario_B [])
              = (Ok (12, 4), mkWorld scenario_B []))
    by (vm_compute; reflexivity).
  split; [exact H |].
  exact (proj1 (get_message_stats_counts scenario_summary_env 4
                  (mkWorld scenario_B []) 12 4 (mkWorld scenario_B []) H)).
Defined.

(** ** The digest that is handed over *)

Lemma summary_events_digest cfg e l msgs t c h :
  SendSummary msgs t c h ∈ summary_events cfg e l ->
  stats_ok e = true /\ select_ok e = true
  /\ run_total cfg e l <> 0
  /\ msgs = run_selection cfg e l /\ msgs <> []
  /\ t = run_total cfg e l /\ c = run_chats cfg e l
  /\ h = summary_interval_hours cfg.
Proof.
  unfold summary_events, report_failure.
  destruct (stats_ok e); [| absent].
  destruct (Z.eqb_spec (run_total cfg e l) 0) as [Hz|Hnz].
  { destruct (bot_up e && negb (deliver_ok e)); absent. }
  destruct (select_ok e); [| absent].
  destruct (run_selection cfg e l) as [|m sel] eqn:Hsel.
  { destruct (bot_up e && negb (deliver_ok e)); absent. }
  intros Hin.
  assert (Heq : SendSummary msgs t c h
                = SendSummary (m :: sel) (run_total cfg e l)
                              (run_chats cfg e l) (summary_interval_hours cfg)).
  { destruct (bot_up e && deliver_ok e);
      repeat (apply elem_of_cons in Hin as [Hin|Hin];
              [first [exact Hin | discriminate Hin] |]);
      by apply elem_of_nil in Hin. }
  injection Heq as -> -> -> ->. done.
Qed.

Lemma length_sql_select_le (p q : Message -> bool) (l : ledger) :
  (forall m, p m = true -> q m = true) ->
  (length (sql_select p l) <= length (sql_select q l))%nat.
Proof.
  intros Hpq. unfold sql_select.
  induction l as [|m l IH]; [done |].
  cbn [List.filter]. destruct (p m) eqn:Hp.
  - rewrite (Hpq m Hp). cbn [length]. lia.
  - destruct (q m); cbn [length]; lia.
Qed.

(** X18. Whenever a summary run hands a digest to [send_summary], the digest is
    the list that the selector returned: it is not empty, holds at most
    the configured maximum of messages, comes with raw counts of at least
    one message and one chat, and every message of it is claimed in the
    table that the run leaves. If the clock did not go back between the
    statistics query and the selection, the digest holds no more messages
    than the raw total that is reported with it. *)
Theorem digest_is_nonempty_and_bounded cfg e w msgs t c h :
  SendSummary msgs t c h
    ∈ emitted (generate_and_send_summary cfg e) w ->
  msgs <> []
  /\ (length msgs <= max_messages_per_summary cfg)%nat
  /\ 1 <= c <= t
  /\ h = summary_interval_hours cfg
  /\ (forall m, m ∈ msgs ->
        claimed (id m) (db (exec (generate_and_send_summary cfg e) w)))
  /\ (stats_now e <= select_now e -> Z.of_nat (length msgs) <= t).
Proof.
  rewrite generate_and_send_summary_emitted, generate_and_send_summary_db.
  intros (Hstats & Hselect & Hnz & -> & Hne & -> & -> & ->)%summary_events_digest.
  unfold summary_db. rewrite Hstats, Hselect.
  apply Z.eqb_neq in Hnz as Hnzb. rewrite Hnzb. cbn [negb andb].
  split; [done |].
  split.
  { unfold run_selection, run_picked.
    rewrite length_fmap, selection_length. lia. }
  assert (Hcounts : 0 <= run_chats cfg e (db w) <= run_total cfg e (db w)
                    /\ (run_chats cfg e (db w) = 0
                        <-> run_total cfg e (db w) = 0)).
  { unfold run_chats, run_total.
    set (rows := in_window _ (db w)).
    pose proof (length_remove_dups_le (chat_id <$> rows)) as Hle.
    rewrite length_fmap in Hle. split; [lia |].
    split; intros H0.
    - assert (Hnil : remove_dups (chat_id <$> rows) = [])
        by (apply length_zero_iff_nil; lia).
      apply remove_dups_nil_iff, fmap_nil_inv in Hnil. by rewrite Hnil.
    - assert (Hnil : rows = []) by (apply length_zero_iff_nil; lia).
      by rewrite Hnil. }
  split. { destruct Hcounts as [? Hiff]. split; [| lia].
           destruct (Z.eq_dec (run_chats cfg e (db w)) 0) as [H0|]; [| lia].
           apply Hiff in H0. done. }
  split; [done |].
  split.
  { intros m Hm. by apply run_selection_claimed. }
  intros Hclock. unfold run_selection, run_picked, run_total, in_window.
  rewrite length_fmap, selection_length.
  pose proof (length_sql_select_le
    (selectable cfg (select_now e - hours_delta (summary_interval_hours cfg)))
    (fun m => stats_now e - hours_delta (summary_interval_hours cfg)
              <=? timestamp m) (db w)) as Hle.
  assert (Himp : forall m,
            selectable cfg
              (select_now e - hours_delta (summary_interval_hours cfg)) m = true ->
            (stats_now e - hours_delta (summary_interval_hours cfg)
             <=? timestamp m) = true).
  { intros m (Hts & _)%selectable_spec. apply Z.leb_le. lia. }
  specialize (Hle Himp). lia.
Qed.

Lemma digest_is_nonempty_and_bounded_witness :
  SendSummary (run_selection scenario_cfg scenario_summary_env scenario_B) 12 4 4
    ∈ emitted (generate_and_send_summary scenario_cfg scenario_summary_env)
              (mkWorld scenario_B [])
  /\ run_selection scenario_cfg scenario_summary_env scenario_B <> [].
Proof.
  assert (H : SendSummary
                (run_selection scenario_cfg scenario_summary_env scenario_B)
                12 4 4
              ∈ emitted (generate_and_send_summary scenario_cfg
                           scenario_summary_env) (mkWorld scenario_B [])).
  { vm_compute. apply list_elem_of_further, list_elem_of_here. }
  split; [exact H |].
  exact (proj1 (digest_is_nonempty_and_bounded scenario_cfg scenario_summary_env
                  (mkWorld scenario_B []) _ 12 4 4 H)).
Defined.

(** ** Failures are contained *)

(** X19. Whatever fails (the summarizer, the insert, the alert, the statistics
    or selection query, the delivery, the error report), [save_message]
    and the three entry points of a summary run return normally: no
    exception leaves them. *)
Theorem intake_and_summary_never_raise cfg :
  (forall hp e tid cid title type uid name text ts cu w,
     fst (save_message cfg hp e tid cid title type uid name text ts cu w)
     = Ok tt)
  /\ (forall e w, fst (generate_and_send_summary cfg e w) = Ok tt)
  /\ (forall e w, fst (scheduled_summary_job cfg e w) = Ok tt)
  /\ (forall e w, fst (trigger_summary_now cfg e w) = Ok tt).
Proof.
  split; [| split; [| split]].
  - intros. rewrite save_message_run. cbv zeta.
    by destruct (persist_ok e),
         (warning_threshold_score cfg <=? intake_score hp uid text cu),
         (bot_app e), (send_ok e && mark_ok e).
  - intros. by rewrite generate_and_send_summary_run.
  - intros. unfold scheduled_summary_job, is_quiet_hours.
    by rewrite generate_and_send_summary_run.
  - intros. unfold trigger_summary_now, log, emit, mbind, M_bind.
    by rewrite generate_and_send_summary_run.
Qed.

(** X20. When the statistics query of a summary run fails, or when it reports
    a non-empty window and the selection query fails, nothing is claimed:
    the table is left as it was, the failure is logged at error level and
    the error text is handed to [send_simple_message]; no digest is handed
    over. *)
Theorem summary_storage_failure_claims_nothing cfg e w :
  stats_ok e = false
  \/ (select_ok e = false /\ run_total cfg e (db w) <> 0) ->
  let run := generate_and_send_summary cfg e in
  db (exec run w) = db w
  /\ emitted run w = [Log INFO; Log ERROR; SendSimpleMessage ErrorReport].
Proof.
  intros Hfail run. unfold run.
  rewrite generate_and_send_summary_db, generate_and_send_summary_emitted.
  unfold summary_db, summary_events, report_failure.
  destruct Hfail as [-> | [-> Hnz]]; [done |].
  apply Z.eqb_neq in Hnz. rewrite Hnz.
  by destruct (stats_ok e).
Qed.

Lemma summary_storage_failure_claims_nothing_witness :
  run_total scenario_cfg
    (mkSummaryEnv true true false true true (at_time 20 0) (at_time 20 0)
                  (at_time 20 1)) scenario_B <> 0
  /\ db (exec (generate_and_send_summary scenario_cfg
                 (mkSummaryEnv true true false true true (at_time 20 0)
                               (at_time 20 0) (at_time 20 1)))
              (mkWorld scenario_B []))
     = scenario_B.
Proof.
  assert (H : run_total scenario_cfg
                (mkSummaryEnv true true false true true (at_time 20 0)
                              (at_time 20 0) (at_time 20 1))
                (db (mkWorld scenario_B [])) <> 0)
    by (vm_compute; discriminate).
  split; [exact H |].
  exact (proj1 (summary_storage_failure_claims_nothing scenario_cfg
                  (mkSummaryEnv true true false true true (at_time 20 0)
                                (at_time 20 0) (at_time 20 1))
                  (mkWorld scenario_B []) (or_intror (conj eq_refl H)))).
Defined.

(** X21. The manual trigger runs the same summary as the timer: both leave
    the same table, and the manual trigger emits the events of the timer
    run after one more log line. *)
Theorem manual_trigger_same_as_timer cfg e w :
  db (exec (trigger_summary_now cfg e) w)
  = db (exec (scheduled_summary_job cfg e) w)
  /\ emitted (trigger_summary_now cfg e) w
     = Log INFO :: emitted (scheduled_summary_job cfg e) w.
Proof.
  unfold scheduled_summary_job, is_quiet_hours.
  rewrite generate_and_send_summary_emitted, generate_and_send_summary_db.
  unfold trigger_summary_now, log, emit, mbind, M_bind.
  split.
  - unfold exec at 1. by rewrite generate_and_send_summary_run.
  - apply emitted_app. unfold exec.
    rewrite generate_and_send_summary_run. cbn [snd trace db].
    by rewrite <- app_assoc.
Qed.

(** ** Rejected callbacks *)

(** X22. A callback whose data are not of the form label, colon, integer,
    colon, one of the three labels, or whose id is not stored, changes no
    row and writes no confirmation. *)
Theorem rejected_callback_changes_nothing e data w :
  match parse_callback data with
  | Request i _ => row_of i (db w) = None
  | _ => True
  end ->
  db (exec (handle_label_callback e data) w) = db w
  /\ forall lab,
       EditMessageText (Confirmation lab)
         ∉ emitted (handle_label_callback e data) w.
Proof.
  intros Hrej.
  assert (Hem : emitted (handle_label_callback e data) w
                = label_events e data (db w)).
  { apply emitted_app. unfold exec. by rewrite handle_label_callback_run. }
  rewrite Hem. unfold exec. rewrite handle_label_callback_run. cbn [snd db].
  unfold label_db, label_events, reply_failure.
  destruct (answer_ok e).
  2: { split; [done | intros lab; absent]. }
  destruct (parse_callback data) as [| | |i lab0];
    try (split; [done | intros lab; absent]).
  rewrite sql_select_absent.
  - split; [done |]. intros lab.
    destruct (edit_ok e && session_ok e); absent.
  - intros m Hin Hid.
    destruct (row_of_exists i (db w) m Hin Hid) as [m' Hm']. congruence.
Qed.

Lemma rejected_callback_changes_nothing_witness :
  parse_callback "label:1:urgent" = BadLabel
  /\ db (exec (handle_label_callback scenario_label_env "label:1:urgent")
              (mkWorld scenario_D []))
     = scenario_D.
Proof.
  split; [reflexivity |].
  exact (proj1 (rejected_callback_changes_nothing scenario_label_env
                  "label:1:urgent" (mkWorld scenario_D []) I)).
Defined.

Example parse_callback_rejections :
  parse_callback "label:1:High" = BadLabel
  /\ parse_callback "label:one:high" = NotAnInteger
  /\ parse_callback "label:1" = Malformed
  /\ parse_callback "vote:1:high" = Malformed
  /\ parse_callback "label:1:high:x" = Malformed
  /\ parse_callback "label: 1_0 :low" = Request 10 "low".
Proof. repeat split; reflexivity. Qed.

(** ** The handler of new messages *)

Lemma save_message_result cfg hp e tid cid title type uid name text ts cu w :
  save_message cfg hp e tid cid title type uid name text ts cu w
  = (Ok tt, exec (save_message cfg hp e tid cid title type uid name text ts cu) w).
Proof.
  unfold exec. rewrite save_message_run. cbv zeta.
  by destruct (persist_ok e),
       (warning_threshold_score cfg <=? intake_score hp uid text cu),
       (bot_app e), (send_ok e && mark_ok e).
Qed.

(** The run of [handle_new_message], by cases: the world is left as it
    is, or an error is logged, or the message is handed to
    [save_message]. *)
Lemma handle_new_message_cases cfg hp e token cu cid ev w :
  let h := handle_new_message cfg hp e token cu cid ev in
  h w = (Ok tt, w)
  \/ h w = (Ok tt, mkWorld (db w) (trace w ++ [Log ERROR]))
  \/ exists user_name user_id,
       truthy (nm_text ev) = true
       /\ nm_fetch_ok ev = true
       /\ (forall s, nm_sender ev = Some s ->
             Some (entity_id s) <> cid
             /\ Some (entity_id s) <> _get_bot_user_id token
             /\ user_id = entity_id s)
       /\ (nm_sender ev = None -> user_id = 0)
       /\ h w
          = (Ok tt,
             exec (save_message cfg hp e (nm_message_id ev) (nm_chat_id ev)
                     (chat_title_of (nm_chat ev)) (get_chat_type (nm_chat ev))
                     user_id user_name (nm_text ev) (nm_date ev) cu) w).
Proof.
  intros h. subst h. unfold handle_new_message, try_except.
  destruct (nm_fetch_ok ev); cbn [negb];
    [| right; left; unfold raise, log, emit; by cbn].
  destruct (nm_sender ev) as [s|] eqn:Hsender.
  - case_bool_decide as Hself; [left; by cbn |].
    destruct (_get_bot_user_id token) as [bot|] eqn:Hbot;
      [| right; left; unfold raise, log, emit; by cbn].
    destruct (Z.eqb_spec (entity_id s) bot) as [Hb|Hb]; [left; by cbn |].
    destruct (truthy (nm_text ev)) eqn:Htext; cbn [negb]; [| left; by cbn].
    unfold mbind, M_bind, sender_fields.
    assert (Hs : forall s', Some s = Some s' ->
              Some (entity_id s') <> cid
              /\ Some (entity_id s') <> Some bot
              /\ entity_id s = entity_id s').
    { intros s' [= <-]. split; [done |]. split; [congruence | done]. }
    destruct s as [i f l | i t | i t mg | i];
      try (cbn [mret M_ret]; rewrite save_message_result;
           right; right; eexists _, _;
           split; [done |]; split; [done |]; split; [exact Hs |];
           split; [done | reflexivity]).
    destruct (truthy l).
    + destruct f as [f|]; [| right; left; unfold raise, log, emit; by cbn].
      cbn [mret M_ret]. rewrite save_message_result.
      right; right. eexists _, _.
      split; [done |]. split; [done |]. split; [exact Hs |].
      split; [done | reflexivity].
    + cbn [mret M_ret]. rewrite save_message_result.
      right; right. eexists _, _.
      split; [done |]. split; [done |]. split; [exact Hs |].
      split; [done | reflexivity].
  - destruct (_get_bot_user_id token) as [bot|] eqn:Hbot;
      [| right; left; unfold raise, log, emit; by cbn].
    destruct (truthy (nm_text ev)) eqn:Htext; cbn [negb]; [| left; by cbn].
    unfold mbind, M_bind, sender_fields. cbn [mret M_ret].
    rewrite save_message_result.
    right; right. exists None, 0.
    split; [done |]. split; [done |]. split; [done |].
    split; [done | reflexivity].
Qed.

(** X23. [handle_new_message] never raises, and it stores at most one row,
    after the rows that are there. It stores none for a message without
    text, for a message sent by the account itself and for a message sent
    by the account's own bot. A row that it stores carries the text, the
    message id, the chat id and the date of the event, the kind of the
    chat, and the id of the sender, who is neither the account nor the
    bot. *)
Theorem handle_new_message_stores_foreign_text cfg hp e token cu cid ev w :
  let h := handle_new_message cfg hp e token cu cid ev in
  fst (h w) = Ok tt
  /\ (db (exec h w) = db w
      \/ exists r,
           db (exec h w) = db w ++ [r]
           /\ id r = next_id (db w)
           /\ truthy (nm_text ev) = true
           /\ message_text r = nm_text ev
           /\ telegram_message_id r = nm_message_id ev
           /\ chat_id r = nm_chat_id ev
           /\ timestamp r = nm_date ev
           /\ chat_type r = get_chat_type (nm_chat ev)
           /\ (forall s, nm_sender ev = Some s ->
                 user_id r = entity_id s
                 /\ Some (entity_id s) <> cid
                 /\ Some (entity_id s) <> _get_bot_user_id token)).
Proof.
  intros h.
  destruct (handle_new_message_cases cfg hp e token cu cid ev w)
    as [Hrun | [Hrun | (name & uid & Htext & _ & Hsender & _ & Hrun)]];
    fold h in Hrun; unfold exec at 1 2; rewrite Hrun; cbn [fst snd db];
    (split; [done |]); try by left.
  rewrite save_message_db. cbv zeta.
  destruct (persist_ok e); [| by left].
  right. eexists. split; [done |].
  destruct ((warning_threshold_score cfg
             <=? intake_score hp uid (nm_text ev) cu)
            && bot_app e && (send_ok e && mark_ok e));
    (repeat (split; [done |]));
    intros s Hs; destruct (Hsender s Hs) as (? & ? & ->); done.
Qed.

(** A message without text, from the account, or from the bot. *)
Example handle_new_message_skips :
  let own := handle_new_message scenario_cfg [] scenario_intake_env
               "777:secret" (Some "bob") (Some 42) in
  own (mkNewMessage 5 None 100 9 None (Some (User 8 (Some "Ann") None)) true)
      (mkWorld [] []) = (Ok tt, mkWorld [] [])
  /\ own (mkNewMessage 5 (Some "hi") 100 9 None
                       (Some (User 42 (Some "Bob") None)) true)
         (mkWorld [] []) = (Ok tt, mkWorld [] [])
  /\ own (mkNewMessage 5 (Some "hi") 100 9 None
                       (Some (User 777 (Some "Bot") None)) true)
         (mkWorld [] []) = (Ok tt, mkWorld [] [])
  /\ own (mkNewMessage 5 (Some "hi") 100 9 None
                       (Some (User 8 None (Some "Lee"))) true)
         (mkWorld [] []) = (Ok tt, mkWorld [] [Log ERROR]).
Proof. repeat split; reflexivity. Qed.

(** ** The commands *)

(** X24. The commands answer the owner only: for any other user the summary,
    statistics and settings commands reply nothing, read nothing and
    change nothing, and the start command replies that the bot is
    private. *)
Theorem commands_ignore_strangers cfg owner user e w
    session_ok reply_ok reply_error_ok now :
  user <> owner ->
  handle_summary_command cfg owner user reply_ok e w = (Ok [], w)
  /\ handle_stats_command owner user session_ok reply_ok reply_error_ok now w
     = (Ok [], w)
  /\ handle_settings_command cfg owner user reply_ok w = (Ok [], w)
  /\ handle_start_command cfg owner user true w = (Ok [ReplyPrivate], w).
Proof.
  intros Hne. apply Z.eqb_neq in Hne.
  unfold handle_summary_command, handle_stats_command,
    handle_settings_command, handle_start_command.
  by rewrite Hne.
Qed.

Lemma commands_ignore_strangers_witness :
  7 <> 42
  /\ handle_summary_command scenario_cfg 42 7 true scenario_summary_env
       (mkWorld scenario_B [])
     = (Ok [], mkWorld scenario_B []).
Proof.
  assert (H : 7 <> 42) by discriminate.
  split; [exact H |].
  exact (proj1 (commands_ignore_strangers scenario_cfg 42 7
                  scenario_summary_env (mkWorld scenario_B [])
                  true true true 0 H)).
Defined.

(** X25. The summary command of the owner runs the summary of the timer: when
    the acknowledgement is written, the world afterwards is the one that
    [generate_and_send_summary] leaves; when writing it fails, the command
    raises before anything is selected or claimed. *)
Theorem summary_command_runs_summary cfg owner reply_ok e w :
  handle_summary_command cfg owner owner reply_ok e w
  = if reply_ok
    then (Ok [ReplyGenerating], exec (generate_and_send_summary cfg e) w)
    else (Raised, w).
Proof.
  unfold handle_summary_command, reply_text, exec.
  rewrite Z.eqb_refl. cbn [negb].
  unfold mbind, M_bind, mret, M_ret, raise.
  destruct reply_ok; [| done].
  by rewrite generate_and_send_summary_run.
Qed.

Lemma exec_ops_rows_ok cfg os w :
  Forall (row_ok cfg) (db w) -> Forall (row_ok cfg) (db (exec_ops cfg os w)).
Proof.
  unfold exec_ops. revert w.
  induction os as [|o os IH]; intros w Hw; [done |].
  cbn [foldl]. apply IH. by apply run_op_rows_ok.
Qed.

Lemma valid_label_cases (l : string) :
  valid_label l = true -> l = "high" \/ l = "medium" \/ l = "low".
Proof.
  unfold valid_label.
  intros [[H | H]%orb_true_iff | H]%orb_true_iff;
    apply String.eqb_eq in H; auto.
Qed.

Lemma label_counts (cfg : SchedulerConfig) (l : ledger) :
  Forall (row_ok cfg) l ->
  sql_count (label_is "high") l + sql_count (label_is "medium") l
  + sql_count (label_is "low") l
  = sql_count (fun m => match label m with
                        | Some _ => true
                        | None => false
                        end) l.
Proof.
  unfold sql_count, sql_select.
  induction 1 as [|m l Hm _ IH]; [done |].
  cbn [List.filter].
  assert (Hm' : forall v, label_is v m
                = match label m with
                  | Some l => String.eqb l v
                  | None => false
                  end) by reflexivity.
  rewrite !Hm'.
  pose proof (ok_label cfg m Hm) as Hlab.
  destruct (label m) as [lab|]; [| exact IH].
  destruct Hlab as [Hvalid _].
  destruct (valid_label_cases lab Hvalid) as [-> | [-> | ->]];
    cbn [String.eqb Ascii.eqb Bool.eqb andb length] in *; lia.
Qed.

(** X26. In every table that captures, label callbacks and summary runs can
    build from the empty table, the statistics command of the owner
    reports numbers that add up: the counts of high, medium and low
    labels sum to the count of labeled messages, the unlabeled count is
    the total minus the labeled count and is not negative, and the count
    of the last 24 hours is at most the total. The command changes
    neither the table nor the trace. *)
Theorem stats_command_adds_up cfg (os : list op) (tr : list event)
    owner reply_error_ok now :
  let w := exec_ops cfg os (mkWorld [] tr) in
  exists s,
    handle_stats_command owner owner true true reply_error_ok now w
    = (Ok [ReplyStatistics s], w)
    /\ st_total s = Z.of_nat (length (db w))
    /\ st_high s + st_medium s + st_low s = st_labeled s
    /\ st_unlabeled s = st_total s - st_labeled s
    /\ 0 <= st_unlabeled s
    /\ 0 <= st_recent s <= st_total s.
Proof.
  intros w.
  assert (Hok : Forall (row_ok cfg) (db w))
    by (apply exec_ops_rows_ok; constructor).
  unfold handle_stats_command, reply_text.
  rewrite Z.eqb_refl. cbn [negb].
  unfold try_except, with_session, read, mbind, M_bind, mret, M_ret.
  cbn beta iota. eexists. split; [reflexivity |].
  cbn [st_total st_recent st_labeled st_high st_medium st_low st_unlabeled].
  assert (Htotal : sql_count (fun _ => true) (db w) = Z.of_nat (length (db w))).
  { unfold sql_count, sql_select. f_equal.
    generalize (db w). induction l as [|m l IH]; [done |].
    cbn [List.filter length]. by rewrite IH. }
  assert (Hle : forall c, 0 <= sql_count c (db w) <= Z.of_nat (length (db w))).
  { intros c. unfold sql_count, sql_select.
    pose proof (List.filter_length_le c (db w)). lia. }
  split; [exact Htotal |].
  split; [by apply (label_counts cfg) |].
  split; [done |].
  rewrite Htotal.
  split; [| apply Hle].
  pose proof (Hle (fun m => match label m with
                            | Some _ => true
                            | None => false
                            end)). lia.
Qed.

Example stats_command_sample :
  handle_stats_command 42 42 true true true (at_time 20 0)
                       (mkWorld scenario_D [])
  = (Ok [ReplyStatistics (mkStatistics 5 5 3 1 1 1 2)], mkWorld scenario_D []).
Proof. vm_compute. reflexivity. Qed.

(** ** The registry of high-priority senders *)

(** X27. A registry that misses some high-priority senders never scores a
    capture higher than a registry that holds them too, and the loss is
    at most the two points of the sender bonus; so a stale cache can only
    under-score. A refresh whose query fails keeps the cache and logs an
    error. A refresh whose query returns replaces the cache by exactly the
    stored user ids, whether or not the session then commits: after a
    failing commit the log line is an error although the cache is the new
    one; after a commit it is an info line. *)
Theorem stale_registry_underscores (hp hp' : list Z) uid text cu :
  (forall x, x ∈ hp -> x ∈ hp') ->
  intake_score hp uid text cu <= intake_score hp' uid text cu
  /\ intake_score hp' uid text cu <= intake_score hp uid text cu + 2
  /\ (forall commit_ok table,
        refresh_high_priority_users false commit_ok table hp = (hp, ERROR))
  /\ (forall commit_ok table x,
        x ∈ fst (refresh_high_priority_users true commit_ok table hp)
        <-> x ∈ table)
  /\ (forall table,
        snd (refresh_high_priority_users true false table hp) = ERROR
        /\ snd (refresh_high_priority_users true true table hp) = INFO).
Proof.
  intros Hsub. unfold intake_score.
  rewrite !calculate_priority_score_sum.
  split; [| split; [| split; [| split]]].
  - do 2 case_bool_decide; cbn [Z.b2z]; try lia.
    exfalso. auto.
  - do 2 case_bool_decide; cbn [Z.b2z]; lia.
  - done.
  - intros commit_ok table x. cbn. apply elem_of_remove_dups.
  - done.
Qed.

Lemma stale_registry_underscores_witness :
  (forall x, x ∈ ([] : list Z) -> x ∈ [42])
  /\ intake_score [] 42 scenario_text (Some "bob")
     <= intake_score [42] 42 scenario_text (Some "bob").
Proof.
  assert (H : forall x, x ∈ ([] : list Z) -> x ∈ [42])
    by (intros x Hx; by apply elem_of_nil in Hx).
  split; [exact H |].
  exact (proj1 (stale_registry_underscores [] [42] 42 scenario_text
                  (Some "bob") H)).
Defined.

(** ** The database URL *)

Lemma prefix_append (a b : string) : String.prefix a (a ++ b) = true.
Proof. apply prefix_spec. by exists b. Qed.

Lemma drop_string_append (a b : string) :
  drop_string (String.length a) (a ++ b) = b.
Proof. induction a as [|c a IH]; [by destruct b | exact IH]. Qed.

Lemma replace_first_prefix (old new rest : string) :
  replace_first old new (old ++ rest) = (new ++ rest)%string.
Proof.
  assert (H : replace_first old new (old ++ rest)
              = (new ++ drop_string (String.length old) (old ++ rest))%string).
  { pose proof (prefix_append old rest) as Hp.
    destruct (old ++ rest)%string; cbn [replace_first]; by rewrite Hp. }
  by rewrite H, drop_string_append.
Qed.

Lemma convert_prefixed (scheme new rest : string) :
  String.prefix "sqlite:///" (scheme ++ rest) = false ->
  String.prefix "postgresql://" (scheme ++ rest) = false ->
  String.prefix "postgres://" (scheme ++ rest) = false ->
  _convert_database_url (scheme ++ rest) = (scheme ++ rest)%string.
Proof. intros H1 H2 H3. unfold _convert_database_url. by rewrite H1, H2, H3. Qed.

(** X28. [_convert_database_url] puts the asynchronous driver into a URL of
    SQLite or PostgreSQL and keeps everything after the scheme; a URL
    that it has converted is left as it is by a second conversion. *)
Theorem convert_database_url_idempotent (url rest : string) :
  _convert_database_url ("sqlite:///" ++ rest) = ("sqlite+aiosqlite:///" ++ rest)%string
  /\ _convert_database_url ("postgresql://" ++ rest)
     = ("postgresql+asyncpg://" ++ rest)%string
  /\ _convert_database_url ("postgres://" ++ rest)
     = ("postgresql+asyncpg://" ++ rest)%string
  /\ _convert_database_url (_convert_database_url url)
     = _convert_database_url url.
Proof.
  assert (Hsqlite : forall r, _convert_database_url ("sqlite:///" ++ r)
                              = ("sqlite+aiosqlite:///" ++ r)%string).
  { intros r. unfold _convert_database_url.
    by rewrite prefix_append, replace_first_prefix. }
  assert (Hpgsql : forall r, _convert_database_url ("postgresql://" ++ r)
                             = ("postgresql+asyncpg://" ++ r)%string).
  { intros r. unfold _convert_database_url.
    change (String.prefix "sqlite:///" ("postgresql://" ++ r)) with false.
    by rewrite prefix_append, replace_first_prefix. }
  assert (Hpg : forall r, _convert_database_url ("postgres://" ++ r)
                          = ("postgresql+asyncpg://" ++ r)%string).
  { intros r. unfold _convert_database_url.
    change (String.prefix "sqlite:///" ("postgres://" ++ r)) with false.
    destruct (String.prefix "postgresql://" ("postgres://" ++ r)) eqn:Hp.
    - cbn in Hp. destruct r; discriminate Hp.
    - by rewrite prefix_append, replace_first_prefix. }
  assert (Hfix : forall r, _convert_database_url ("postgresql+asyncpg://" ++ r)
                           = ("postgresql+asyncpg://" ++ r)%string)
    by (intros r; by apply convert_prefixed).
  split; [apply Hsqlite |]. split; [apply Hpgsql |]. split; [apply Hpg |].
  destruct (String.prefix "sqlite:///" url) eqn:H1.
  { apply prefix_spec in H1 as [post ->]. rewrite Hsqlite.
    by apply convert_prefixed. }
  destruct (String.prefix "postgresql://" url) eqn:H2.
  { apply prefix_spec in H2 as [post ->]. by rewrite Hpgsql, Hfix. }
  destruct (String.prefix "postgres://" url) eqn:H3.
  { apply prefix_spec in H3 as [post ->]. by rewrite Hpg, Hfix. }
  assert (Hid : _convert_database_url url = url)
    by (unfold _convert_database_url; by rewrite H1, H2, H3).
  by rewrite !Hid.
Qed.

Example convert_database_url_samples :
  _convert_database_url "sqlite:///bot.db" = "sqlite+aiosqlite:///bot.db"
  /\ _convert_database_url "postgres://u:p@h/db" = "postgresql+asyncpg://u:p@h/db"
  /\ _convert_database_url "mysql://h/db" = "mysql://h/db"
  /\ _is_sqlite (_convert_database_url "sqlite:///bot.db") = true
  /\ _is_sqlite "postgresql://h/SQLite_backup" = true.
Proof. repeat split; reflexivity. Qed.
